(** * PoChartBaseComponent: input normalisation of the chart base class

    Shallow embedding of
    [projects/ui/src/lib/components/po-chart/po-chart-base.component.ts].

    The component is a class with private fields, setters that coerce what
    the host binds to them, two event relays and one abstract method.
    JavaScript values live in a store of objects and arrays addressed by
    location, so that aliasing between the caller's objects and the ones
    the component keeps can be stated.  The setters thread a [World]
    (store, component fields, effect trace); the one primitive of the file
    that can throw on data, [Object.keys], returns in an error monad.  The
    module [Accessors] has the store with accessor properties, whose
    getters may throw when an object is spread. *)

From Stdlib Require Import ZArith QArith Qround Lia Bool.
From stdpp Require Import base list strings pretty.

Local Open Scope Z_scope.

(** ** JavaScript values *)

(** A JavaScript number that is not NaN or an infinity is a double, and
    every double is a rational; the component only compares numbers and
    takes their integer part, which is exact on rationals.  The sign of
    zero is not represented. *)
Inductive number : Type :=
  | NaN
  | PInf
  | NInf
  | Fin (q : Q).

Abbreviation loc := nat (only parsing).

Inductive value : Type :=
  | VUndefined
  | VNull
  | VBool (b : bool)
  | VNum (n : number)
  | VStr (s : string)
  | VRef (l : loc).

(** What a location of the store holds: a plain object with its own
    enumerable properties in insertion order, or an array. *)
Inductive obj : Type :=
  | Obj (props : list (string * value))
  | Arr (elems : list value).

Abbreviation heap := (list obj) (only parsing).

Definition int (n : Z) : value := VNum (Fin (inject_Z n)).

(** Allocation returns the new store and a reference to the new cell. *)
Definition alloc (h : heap) (o : obj) : heap * value :=
  (h ++ [o], VRef (length h)).

(** ** Exceptions *)

Inductive exn : Type :=
  | TypeError.

Inductive result (A : Type) : Type :=
  | Ok (a : A)
  | Throw (e : exn).
Arguments Ok {A} a.
Arguments Throw {A} e.

Global Instance result_ret : MRet result := fun A a => Ok a.
Global Instance result_bind : MBind result := fun A B k m =>
  match m with
  | Ok a => k a
  | Throw e => Throw e
  end.

(** ** Operators of the language used by the component *)

Definition num_eqb (a b : number) : bool :=
  match a, b with
  | PInf, PInf => true
  | NInf, NInf => true
  | Fin p, Fin q => Qeq_bool p q
  | _, _ => false
  end.

(** [a <= b] on numbers: every comparison with NaN is false. *)
Definition num_leb (a b : number) : bool :=
  match a, b with
  | NaN, _ | _, NaN => false
  | NInf, _ => true
  | _, PInf => true
  | Fin p, Fin q => Qle_bool p q
  | _, _ => false
  end.

(** [typeof v]. Functions and symbols are not represented. *)
Definition typeof (v : value) : string :=
  match v with
  | VUndefined => "undefined"
  | VNull => "object"
  | VBool _ => "boolean"
  | VNum _ => "number"
  | VStr _ => "string"
  | VRef _ => "object"
  end.

(** ToBoolean. *)
Definition truthy (v : value) : bool :=
  match v with
  | VUndefined | VNull => false
  | VBool b => b
  | VNum NaN => false
  | VNum (Fin q) => negb (Qeq_bool q 0)
  | VNum _ => true
  | VStr s => negb (String.eqb s EmptyString)
  | VRef _ => true
  end.

(** [a === b]. *)
Definition strict_equals (a b : value) : bool :=
  match a, b with
  | VUndefined, VUndefined => true
  | VNull, VNull => true
  | VBool x, VBool y => Bool.eqb x y
  | VNum x, VNum y => num_eqb x y
  | VStr x, VStr y => String.eqb x y
  | VRef x, VRef y => Nat.eqb x y
  | _, _ => false
  end.

(** SameValueZero, the comparison of [Array.prototype.includes]: strict
    equality, except that NaN equals itself. *)
Definition same_value_zero (a b : value) : bool :=
  match a, b with
  | VNum NaN, VNum NaN => true
  | _, _ => strict_equals a b
  end.

Definition includes (xs : list value) (v : value) : bool :=
  existsb (fun x => same_value_zero x v) xs.

Definition Array_isArray (h : heap) (v : value) : bool :=
  match v with
  | VRef l => match h !! l with Some (Arr _) => true | _ => false end
  | _ => false
  end.

(** The elements an array reference iterates over, as in [[...a]]. *)
Definition elements (h : heap) (v : value) : list value :=
  match v with
  | VRef l => match h !! l with Some (Arr es) => es | _ => [] end
  | _ => []
  end.

(** The own enumerable properties copied by an object spread [{...v}]:
    the properties of an object, the indexed elements of an array or of a
    string, none for the other primitives. *)
Definition own_props (h : heap) (v : value) : list (string * value) :=
  match v with
  | VRef l =>
      match h !! l with
      | Some (Obj ps) => ps
      | Some (Arr es) => imap (fun i x => (pretty i, x)) es
      | None => []
      end
  | VStr s =>
      imap (fun i c => (pretty i, VStr (String c EmptyString)))
           (String.list_ascii_of_string s)
  | _ => []
  end.

(** Property read [v.k]: [undefined] when the property is absent. Only
    reads on objects of the store are needed. *)
Definition get_prop (h : heap) (v : value) (k : string) : value :=
  match v with
  | VRef l =>
      match h !! l with
      | Some (Obj ps) =>
          match find (fun p => String.eqb (fst p) k) ps with
          | Some p => snd p
          | None => VUndefined
          end
      | _ => VUndefined
      end
  | _ => VUndefined
  end.

(** [Object.keys(v)] throws a TypeError on [undefined] and [null]; a
    primitive has no own enumerable keys (a string has its indices). *)
Definition Object_keys (h : heap) (v : value) : result (list string) :=
  match v with
  | VUndefined | VNull => Throw TypeError
  | VRef l =>
      match h !! l with
      | Some (Obj ps) => Ok (map fst ps)
      | Some (Arr es) => Ok (map (fun i => pretty i) (seq 0 (length es)))
      | None => Ok []
      end
  | VStr s => Ok (map (fun i => pretty i) (seq 0 (String.length s)))
  | _ => Ok []
  end.

(** ** Constants and collaborators of the component *)

Definition poChartDefaultHeight : Z := 400.
Definition poChartMinHeight : Z := 200.

(** The enum [PoChartType] is declared in [enums/po-chart-type.enum],
    which is not part of the file; the component uses [Object.values] of
    it and its members [Pie] and [Gauge], taken here as given. *)
Record PoChartTypeEnum : Type := {
  values : list value;
  Pie : value;
  Gauge : value
}.

(** Modelled from the spec: [PoChartMinMaxValues] of
    [interfaces/po-chart-min-max-values.interface] is missing; section 3
    gives it as [{min: number, max: number}]. *)
Record PoChartMinMaxValues : Type := {
  min : number;
  max : number
}.

(** What the component does to the outside: the abstract
    [rebuildComponent] is a signal to the embedding chart, and an emitter
    calls the [next] of a subscribed listener with a payload. *)
Inductive effect : Type :=
  | RebuildComponent
  | Next (listener : nat) (payload : value).

(** Angular's [EventEmitter]: the listeners subscribed to it, in order of
    subscription. *)
Record EventEmitter : Type := {
  observers : list nat
}.

Definition subscribe (e : EventEmitter) (listener : nat) : EventEmitter :=
  {| observers := observers e ++ [listener] |}.

Record Component : Type := {
  _axisOptions : value;
  _height : value;
  _series : value;
  _type : value;
  minMaxValues : option PoChartMinMaxValues;
  chartSeries : value;
  categories : value;
  title : value;
  seriesClick : EventEmitter;
  seriesHover : EventEmitter
}.

Record World : Type := {
  store : heap;
  this : Component;
  trace : list effect
}.

Definition with_axisOptions (c : Component) (v : value) : Component :=
  {| _axisOptions := v; _height := _height c; _series := _series c;
     _type := _type c; minMaxValues := minMaxValues c;
     chartSeries := chartSeries c; categories := categories c;
     title := title c; seriesClick := seriesClick c;
     seriesHover := seriesHover c |}.

Definition with_height (c : Component) (v : value) : Component :=
  {| _axisOptions := _axisOptions c; _height := v; _series := _series c;
     _type := _type c; minMaxValues := minMaxValues c;
     chartSeries := chartSeries c; categories := categories c;
     title := title c; seriesClick := seriesClick c;
     seriesHover := seriesHover c |}.

Definition with_series (c : Component) (v : value) : Component :=
  {| _axisOptions := _axisOptions c; _height := _height c; _series := v;
     _type := _type c; minMaxValues := minMaxValues c;
     chartSeries := chartSeries c; categories := categories c;
     title := title c; seriesClick := seriesClick c;
     seriesHover := seriesHover c |}.

Definition with_type (c : Component) (v : value) : Component :=
  {| _axisOptions := _axisOptions c; _height := _height c;
     _series := _series c; _type := v; minMaxValues := minMaxValues c;
     chartSeries := chartSeries c; categories := categories c;
     title := title c; seriesClick := seriesClick c;
     seriesHover := seriesHover c |}.

Definition with_minMaxValues (c : Component)
    (m : option PoChartMinMaxValues) : Component :=
  {| _axisOptions := _axisOptions c; _height := _height c;
     _series := _series c; _type := _type c; minMaxValues := m;
     chartSeries := chartSeries c; categories := categories c;
     title := title c; seriesClick := seriesClick c;
     seriesHover := seriesHover c |}.

Definition with_chartSeries (c : Component) (v : value) : Component :=
  {| _axisOptions := _axisOptions c; _height := _height c;
     _series := _series c; _type := _type c;
     minMaxValues := minMaxValues c; chartSeries := v;
     categories := categories c; title := title c;
     seriesClick := seriesClick c; seriesHover := seriesHover c |}.

Definition with_this (w : World) (c : Component) : World :=
  {| store := store w; this := c; trace := trace w |}.

(** [emitter.emit(v)] delivers [v] synchronously, once to each listener
    subscribed to the emitter. *)
Definition emit (e : EventEmitter) (v : value) (w : World) : World :=
  {| store := store w; this := this w;
     trace := trace w ++ map (fun l => Next l v) (observers e) |}.

(** How many times a trace signals [rebuildComponent]. *)
Definition is_rebuild (e : effect) : bool :=
  match e with
  | RebuildComponent => true
  | Next _ _ => false
  end.

Definition rebuilds (t : list effect) : nat :=
  length (List.filter is_rebuild t).

(** ** Helpers imported by the component *)

(** Modelled from the spec: [isTypeof] of [utils/util] is missing; section
    4.1 uses it as the test that the raw value is a number, that is
    [typeof object === type]. *)
Definition isTypeof (object : value) (type : string) : bool :=
  String.eqb (typeof object) type.

(** Modelled from the spec: [convertToInt] of [utils/util] is missing;
    section 4.1: a number is coerced to an integer by truncation, not
    rounding.  What has no integer part (NaN, an infinity, a value that
    is not a number) gives [undefined], written [None]. *)
Definition truncate (q : Q) : Z := Z.quot (Qnum q) (Z.pos (Qden q)).

Definition convertToInt (v : value) : option Z :=
  match v with
  | VNum (Fin q) => Some (truncate q)
  | _ => None
  end.

(** The result of [convertToInt] as a value. *)
Definition of_int (i : option Z) : value :=
  match i with
  | Some n => int n
  | None => VUndefined
  end.

(** [i <= n] for [i] a result of [convertToInt]: [undefined] converts to
    NaN, and a comparison with NaN is false. *)
Definition le_int (i : option Z) (n : Z) : bool :=
  match i with
  | Some x => x <=? n
  | None => false
  end.

Definition num_min (a b : number) : number := if num_leb a b then a else b.
Definition num_max (a b : number) : number := if num_leb a b then b else a.

(** A numeric value: a number other than NaN. *)
Definition numeric (v : value) : option number :=
  match v with
  | VNum NaN => None
  | VNum n => Some n
  | _ => None
  end.

(** The data points of one series: the numeric entries of its [data]
    sequence, or the single number of a series whose [data] is a number
    (section 3). *)
Definition data_points_of (h : heap) (serie : value) : list number :=
  match get_prop h serie "data" with
  | VNum n => omap numeric [VNum n]
  | d => omap numeric (elements h d)
  end.

Definition data_points (h : heap) (series : list value) : list number :=
  flat_map (data_points_of h) series.

(** Modelled from the spec: [calculateMaxValue] of [helpers/maths] is
    missing; section 4.3: scan the data sequence of every series and take
    the global minimum and maximum numeric value encountered; with
    nothing to scan MinMax is undefined, written [None]. *)
Definition calculateMaxValue (h : heap) (series : value)
    : option PoChartMinMaxValues :=
  match data_points h (elements h series) with
  | [] => None
  | x :: xs => Some {| min := foldl num_min x xs; max := foldl num_max x xs |}
  end.

(** ** The class *)

Section PoChartBaseComponent.

Variable PoChartType : PoChartTypeEnum.

Definition poChartTypeDefault : value := Pie PoChartType.

(** A component on which no input was bound yet. *)
Definition new_component : Component :=
  {| _axisOptions := VUndefined; _height := VUndefined;
     _series := VUndefined; _type := poChartTypeDefault;
     minMaxValues := None; chartSeries := VUndefined;
     categories := VUndefined; title := VUndefined;
     seriesClick := {| observers := [] |};
     seriesHover := {| observers := [] |} |}.

Definition get_type (c : Component) : value := _type c.

Definition setDefaultHeight (c : Component) : value :=
  if strict_equals (get_type c) (Gauge PoChartType)
  then int poChartMinHeight
  else int poChartDefaultHeight.

(** [abstract rebuildComponent(): void]. *)
Definition rebuildComponent (w : World) : World :=
  {| store := store w; this := this w;
     trace := trace w ++ [RebuildComponent] |}.

Definition set_height (w : World) (value : value) : World :=
  let intValue := convertToInt value in
  let height :=
    if isTypeof value "number"
    then (if le_int intValue poChartMinHeight
          then int poChartMinHeight
          else of_int intValue)
    else setDefaultHeight (this w) in
  rebuildComponent (with_this w (with_height (this w) height)).

Definition get_height (c : Component) : value :=
  if truthy (_height c) then _height c else setDefaultHeight c.

(** The height the component shows after [value] was bound to
    [p-height]: the setter, then the getter. *)
Definition resolveHeight (w : World) (value : value) :=
  get_height (this (set_height w value)).

Definition transformObjectToArrayObject (h : heap) (serie : value)
    : result (heap * value) :=
  if String.eqb (typeof serie) "object" then
    keys ← Object_keys h serie;
    if (0 <? length keys)%nat then
      let '(h1, copy) := alloc h (Obj (own_props h serie)) in
      Ok (alloc h1 (Arr [copy]))
    else Ok (alloc h (Arr []))
  else Ok (alloc h (Arr [])).

Definition set_series (w : World) (value : value) : result World :=
  let '(h0, series) :=
    if truthy value then (store w, value) else alloc (store w) (Arr []) in
  let c0 := with_series (this w) series in
  if Array_isArray h0 series then
    let c1 := with_minMaxValues c0 (calculateMaxValue h0 series) in
    let '(h1, copy) := alloc h0 (Arr (elements h0 series)) in
    Ok {| store := h1; this := with_chartSeries c1 copy; trace := trace w |}
  else
    '(h1, wrapped) ← transformObjectToArrayObject h0 series;
    Ok {| store := h1; this := with_chartSeries c0 wrapped;
          trace := trace w |}.

Definition get_series (c : Component) : value := _series c.

Definition set_type (w : World) (value : value) : World :=
  let type :=
    if includes (values PoChartType) value then value
    else poChartTypeDefault in
  rebuildComponent (with_this w (with_type (this w) type)).

Definition set_axisOptions (w : World) (value : value) : World :=
  with_this w (with_axisOptions (this w) value).

Definition get_axisOptions (c : Component) : value := _axisOptions c.

Definition onSeriesClick (w : World) (event : value) : World :=
  emit (seriesClick (this w)) event w.

Definition onSeriesHover (w : World) (event : value) : World :=
  emit (seriesHover (this w)) event w.

End PoChartBaseComponent.

(** ** Sample inputs *)

(** An enum instance for the examples: the members that section 3 of the
    spec names, as the strings of a string enum. *)
Definition sample_PoChartType : PoChartTypeEnum :=
  {| values := [VStr "pie"; VStr "donut"; VStr "line"; VStr "gauge";
                VStr "area"];
     Pie := VStr "pie";
     Gauge := VStr "gauge" |}.

(** A store holding the inputs of the spec's examples:
    location 0 is [{value: 42}], location 1 is [{}],
    location 6 is [[{label:'A', data:[1,5,3]}, {label:'B', data:[-2,9]}]]
    (its series at 3 and 5, their data at 2 and 4). *)
Definition sample_store : heap :=
  [ Obj [("value"%string, int 42)];
    Obj [];
    Arr [int 1; int 5; int 3];
    Obj [("label"%string, VStr "A"); ("data"%string, VRef 2)];
    Arr [int (-2); int 9];
    Obj [("label"%string, VStr "B"); ("data"%string, VRef 4)];
    Arr [VRef 3; VRef 5] ].

Definition sample_world : World :=
  {| store := sample_store;
     this := new_component sample_PoChartType;
     trace := [] |}.

(** A component with one listener on each emitter. *)
Definition listening_world (click hover : nat) : World :=
  let c := new_component sample_PoChartType in
  {| store := sample_store;
     this :=
       {| _axisOptions := _axisOptions c; _height := _height c;
          _series := _series c; _type := _type c;
          minMaxValues := minMaxValues c; chartSeries := chartSeries c;
          categories := categories c; title := title c;
          seriesClick := subscribe (seriesClick c) click;
          seriesHover := subscribe (seriesHover c) hover |};
     trace := [] |}.

(** The sample component after the two series of location 6 were bound to
    [p-series]. *)
Definition charted_world : World :=
  match set_series sample_world (VRef 6) with
  | Ok w => w
  | Throw _ => sample_world
  end.

(** ** The host of the component *)

(** The template that embeds the chart binds values to its inputs,
    subscribes to its outputs, and the chart drawn inside it reports
    clicks and hovers, in any order. [categories] and [title] are plain
    input properties, assigned as they come. *)
Definition with_categories (c : Component) (v : value) : Component :=
  {| _axisOptions := _axisOptions c; _height := _height c;
     _series := _series c; _type := _type c;
     minMaxValues := minMaxValues c; chartSeries := chartSeries c;
     categories := v; title := title c;
     seriesClick := seriesClick c; seriesHover := seriesHover c |}.

Definition with_title (c : Component) (v : value) : Component :=
  {| _axisOptions := _axisOptions c; _height := _height c;
     _series := _series c; _type := _type c;
     minMaxValues := minMaxValues c; chartSeries := chartSeries c;
     categories := categories c; title := v;
     seriesClick := seriesClick c; seriesHover := seriesHover c |}.

Definition with_seriesClick (c : Component) (e : EventEmitter) : Component :=
  {| _axisOptions := _axisOptions c; _height := _height c;
     _series := _series c; _type := _type c;
     minMaxValues := minMaxValues c; chartSeries := chartSeries c;
     categories := categories c; title := title c;
     seriesClick := e; seriesHover := seriesHover c |}.

Definition with_seriesHover (c : Component) (e : EventEmitter) : Component :=
  {| _axisOptions := _axisOptions c; _height := _height c;
     _series := _series c; _type := _type c;
     minMaxValues := minMaxValues c; chartSeries := chartSeries c;
     categories := categories c; title := title c;
     seriesClick := seriesClick c; seriesHover := e |}.

Inductive input : Type :=
  | PHeight (v : value)
  | PSeries (v : value)
  | PCategories (v : value)
  | PTitle (v : value)
  | PType (v : value)
  | PAxisOptions (v : value)
  | PSeriesClick (listener : nat)
  | PSeriesHover (listener : nat)
  | SeriesClick (event : value)
  | SeriesHover (event : value).

(** The inputs whose setter ends in [this.rebuildComponent()]. *)
Definition rebuilding (i : input) : bool :=
  match i with
  | PHeight _ | PType _ => true
  | _ => false
  end.

Section Host.

Variable PoChartType : PoChartTypeEnum.

Definition bind_input (w : World) (i : input) : result World :=
  match i with
  | PHeight v => Ok (set_height PoChartType w v)
  | PSeries v => set_series w v
  | PCategories v => Ok (with_this w (with_categories (this w) v))
  | PTitle v => Ok (with_this w (with_title (this w) v))
  | PType v => Ok (set_type PoChartType w v)
  | PAxisOptions v => Ok (set_axisOptions w v)
  | PSeriesClick l =>
      Ok (with_this w
            (with_seriesClick (this w) (subscribe (seriesClick (this w)) l)))
  | PSeriesHover l =>
      Ok (with_this w
            (with_seriesHover (this w) (subscribe (seriesHover (this w)) l)))
  | SeriesClick e => Ok (onSeriesClick w e)
  | SeriesHover e => Ok (onSeriesHover w e)
  end.

Fixpoint bind_inputs (w : World) (inputs : list input) : result World :=
  match inputs with
  | [] => Ok w
  | i :: rest => w' ← bind_input w i; bind_inputs w' rest
  end.

(** A component that was just created, in a program whose store is [h]. *)
Definition created (h : heap) : World :=
  {| store := h; this := new_component PoChartType; trace := [] |}.

End Host.

(** A session on the sample component: a listener subscribes to clicks,
    the host binds a title, an undefined height, the type gauge, the
    gauge series of location 0, then NaN as height, and the chart reports
    a click. *)
Definition sample_inputs : list input :=
  [ PSeriesClick 7; PTitle (VStr "load"); PHeight VUndefined;
    PType (VStr "gauge"); PSeries (VRef 0); PHeight (VNum NaN);
    SeriesClick (VRef 0) ].

(** ** What holds of a component along a session *)

(** The stored height is undefined or an integer of at least 200. *)
Definition height_stored_ok (c : Component) : Prop :=
  _height c = VUndefined \/ exists n, 200 <= n /\ _height c = int n.

(** [chartSeries] refers to an array of the store. *)
Definition chartSeries_ok (w : World) : Prop :=
  exists a es, chartSeries (this w) = VRef a /\ store w !! a = Some (Arr es).

(** The payloads a listener was called with, in order. *)
Definition calls_to (l : nat) (t : list effect) : list value :=
  flat_map (fun e => match e with
                     | Next l' p => if Nat.eqb l' l then [p] else []
                     | RebuildComponent => []
                     end) t.

(** The payloads of the clicks that a session reports. *)
Definition clicks (inputs : list input) : list value :=
  flat_map (fun i => match i with SeriesClick e => [e] | _ => [] end) inputs.

(** ** Objects with accessors *)

(** The store above holds data properties only.  An own property of a
    JavaScript object may also be an accessor, whose getter runs when the
    property is read, and so when the object is spread; the getter may
    throw.  This module has the store with both kinds of property and
    the part of the component that reads the store, the series setter
    and its helper, over it.  A getter is represented by the outcome of
    calling it; which exception is thrown is not distinguished, and
    getters that write to the store, proxies, functions and symbols are
    not represented. *)
Module Accessors.

Inductive property : Type :=
  | Data (v : value)
  | Accessor (get : result value).

Inductive obj : Type :=
  | Obj (props : list (string * property))
  | Arr (elems : list value).

Abbreviation heap := (list obj) (only parsing).

Definition alloc (h : heap) (o : obj) : heap * value :=
  (h ++ [o], VRef (length h)).

(** Reading a property: its value, or what its getter does. *)
Definition read (p : property) : result value :=
  match p with
  | Data v => Ok v
  | Accessor get => get
  end.

Definition Array_isArray (h : heap) (v : value) : bool :=
  match v with
  | VRef l => match h !! l with Some (Arr _) => true | _ => false end
  | _ => false
  end.

Definition elements (h : heap) (v : value) : list value :=
  match v with
  | VRef l => match h !! l with Some (Arr es) => es | _ => [] end
  | _ => []
  end.

(** [Object.keys(v)] lists the names of accessors too and calls no
    getter. *)
Definition Object_keys (h : heap) (v : value) : result (list string) :=
  match v with
  | VUndefined | VNull => Throw TypeError
  | VRef l =>
      match h !! l with
      | Some (Obj ps) => Ok (map fst ps)
      | Some (Arr es) => Ok (map (fun i => pretty i) (seq 0 (length es)))
      | None => Ok []
      end
  | VStr s => Ok (map (fun i => pretty i) (seq 0 (String.length s)))
  | _ => Ok []
  end.

(** The properties of a copy: each own property is read in order, a
    getter that throws ends the copy, and what was read becomes a data
    property. *)
Fixpoint spread_props (ps : list (string * property))
    : result (list (string * property)) :=
  match ps with
  | [] => Ok []
  | (k, p) :: rest =>
      v ← read p; qs ← spread_props rest; Ok ((k, Data v) :: qs)
  end.

(** The object spread [{...v}]. *)
Definition spread (h : heap) (v : value)
    : result (list (string * property)) :=
  match v with
  | VRef l =>
      match h !! l with
      | Some (Obj ps) => spread_props ps
      | Some (Arr es) => Ok (imap (fun i x => (pretty i, Data x)) es)
      | None => Ok []
      end
  | VStr s =>
      Ok (imap (fun i c => (pretty i, Data (VStr (String c EmptyString))))
               (String.list_ascii_of_string s))
  | _ => Ok []
  end.

(** Property read [v.k]. *)
Definition get_prop (h : heap) (v : value) (k : string) : result value :=
  match v with
  | VRef l =>
      match h !! l with
      | Some (Obj ps) =>
          match find (fun p => String.eqb (fst p) k) ps with
          | Some p => read (snd p)
          | None => Ok VUndefined
          end
      | _ => Ok VUndefined
      end
  | _ => Ok VUndefined
  end.

Definition data_points_of (h : heap) (serie : value) : result (list number) :=
  d ← get_prop h serie "data";
  Ok (match d with
      | VNum n => omap numeric [VNum n]
      | d => omap numeric (elements h d)
      end).

Fixpoint data_points (h : heap) (series : list value)
    : result (list number) :=
  match series with
  | [] => Ok []
  | s :: rest =>
      xs ← data_points_of h s; ys ← data_points h rest; Ok (xs ++ ys)
  end.

(** Modelled from the spec: [calculateMaxValue] of [helpers/maths] is
    missing; section 4.3, as above, with [serie.data] read through the
    getter when [data] is an accessor. *)
Definition calculateMaxValue (h : heap) (series : value)
    : result (option PoChartMinMaxValues) :=
  pts ← data_points h (elements h series);
  Ok (match pts with
      | [] => None
      | x :: xs =>
          Some {| min := foldl num_min x xs; max := foldl num_max x xs |}
      end).

Record World : Type := {
  store : heap;
  this : Component;
  trace : list effect
}.

Definition transformObjectToArrayObject (h : heap) (serie : value)
    : result (heap * value) :=
  if String.eqb (typeof serie) "object" then
    keys ← Object_keys h serie;
    if (0 <? length keys)%nat then
      props ← spread h serie;
      let '(h1, copy) := alloc h (Obj props) in
      Ok (alloc h1 (Arr [copy]))
    else Ok (alloc h (Arr []))
  else Ok (alloc h (Arr [])).

Definition set_series (w : World) (value : value) : result World :=
  let '(h0, series) :=
    if truthy value then (store w, value) else alloc (store w) (Arr []) in
  let c0 := with_series (this w) series in
  if Array_isArray h0 series then
    minMax ← calculateMaxValue h0 series;
    let c1 := with_minMaxValues c0 minMax in
    let '(h1, copy) := alloc h0 (Arr (elements h0 series)) in
    Ok {| store := h1; this := with_chartSeries c1 copy; trace := trace w |}
  else
    '(h1, wrapped) ← transformObjectToArrayObject h0 series;
    Ok {| store := h1; this := with_chartSeries c0 wrapped;
          trace := trace w |}.

(** No getter of the store throws. *)
Definition getters_return (h : heap) : Prop :=
  forall l ps k e, h !! l = Some (Obj ps) -> ~ In (k, Accessor (Throw e)) ps.

(** An own getter of the object throws. *)
Definition getter_throws (ps : list (string * property)) : Prop :=
  exists k e, In (k, Accessor (Throw e)) ps.

End Accessors.

(** A store of data properties, as a store with accessors. *)
Definition with_accessors (h : heap) : list Accessors.obj :=
  map (fun o => match o with
                | Obj ps =>
                    Accessors.Obj
                      (map (fun kv => (fst kv, Accessors.Data (snd kv))) ps)
                | Arr es => Accessors.Arr es
                end) h.




(** A world over data properties, as a world over the store with
    accessors. *)
Definition world_with_accessors (w : World) : Accessors.World :=
  {| Accessors.store := with_accessors (store w);
     Accessors.this := this w;
     Accessors.trace := trace w |}.

(** * Properties *)

(** ** Numbers *)

Lemma num_leb_refl (a : number) : a <> NaN -> num_leb a a = true.
Proof.
  destruct a as [| | |q]; simpl; try congruence.
  intros _. apply Qle_bool_iff, Qle_refl.
Qed.

Lemma num_leb_total (a b : number) :
  a <> NaN -> b <> NaN -> num_leb a b = false -> num_leb b a = true.
Proof.
  destruct a as [| | |p], b as [| | |q]; simpl; try congruence.
  intros _ _ Hpq. apply Qle_bool_iff.
  destruct (Qlt_le_dec q p) as [Hlt|Hle].
  - apply Qlt_le_weak, Hlt.
  - apply Qle_bool_iff in Hle. congruence.
Qed.

Lemma num_leb_trans (a b c : number) :
  num_leb a b = true -> num_leb b c = true -> num_leb a c = true.
Proof.
  destruct a as [| | |p], b as [| | |q], c as [| | |r]; simpl;
    try congruence.
  rewrite !Qle_bool_iff. apply Qle_trans.
Qed.

Lemma num_leb_not_NaN (a b : number) :
  num_leb a b = true -> a <> NaN /\ b <> NaN.
Proof. destruct a, b; simpl; split; congruence. Qed.

Lemma numeric_not_NaN (v : value) (n : number) :
  numeric v = Some n -> n <> NaN.
Proof.
  destruct v as [| | |[]| |]; simpl; intros H; inversion H; congruence.
Qed.

Lemma omap_numeric_not_NaN (vs : list value) :
  List.Forall (fun n => n <> NaN) (omap numeric vs).
Proof.
  induction vs as [|v vs IH]; simpl; [constructor|].
  destruct (numeric v) eqn:E; [|exact IH].
  constructor; [eapply numeric_not_NaN, E | exact IH].
Qed.

Lemma data_points_of_not_NaN (h : heap) (serie : value) :
  List.Forall (fun n => n <> NaN) (data_points_of h serie).
Proof.
  unfold data_points_of.
  destruct (get_prop h serie "data"); apply omap_numeric_not_NaN.
Qed.

Lemma data_points_not_NaN (h : heap) (series : list value) :
  List.Forall (fun n => n <> NaN) (data_points h series).
Proof.
  unfold data_points. induction series as [|s ss IH]; simpl.
  - constructor.
  - apply List.Forall_app. split; [apply data_points_of_not_NaN | exact IH].
Qed.

(** The left fold of [num_min] picks an element that is below all. *)
Lemma foldl_num_min_spec (xs : list number) (x : number) :
  List.Forall (fun n => n <> NaN) (x :: xs) ->
  In (foldl num_min x xs) (x :: xs) /\
  forall y, In y (x :: xs) -> num_leb (foldl num_min x xs) y = true.
Proof.
  revert x. induction xs as [|y ys IH]; intros x Hall.
  - simpl. inversion Hall; subst. split; [now left|].
    intros z [<-|[]]. now apply num_leb_refl.
  - inversion Hall as [|? ? Hx Hrest]; subst.
    inversion Hrest as [|? ? Hy Hys]; subst.
    assert (Hm : num_min x y <> NaN)
      by (unfold num_min; destruct (num_leb x y); assumption).
    destruct (IH (num_min x y)) as [Hin Hle]; [now constructor|].
    cbn [foldl]. split.
    + destruct Hin as [Heq|Hin].
      * rewrite <- Heq. unfold num_min.
        destruct (num_leb x y); [now left | right; now left].
      * right; right; exact Hin.
    + intros z Hz.
      assert (Hmx : num_leb (num_min x y) x = true).
      { unfold num_min. destruct (num_leb x y) eqn:E.
        - now apply num_leb_refl.
        - now apply num_leb_total. }
      assert (Hmy : num_leb (num_min x y) y = true).
      { unfold num_min. destruct (num_leb x y) eqn:E.
        - exact E.
        - now apply num_leb_refl. }
      pose proof (Hle (num_min x y) (or_introl eq_refl)) as Hfm.
      destruct Hz as [<-|[<-|Hz]].
      * eapply num_leb_trans; eassumption.
      * eapply num_leb_trans; eassumption.
      * apply Hle. now right.
Qed.

(** The left fold of [num_max] picks an element that is above all. *)
Lemma foldl_num_max_spec (xs : list number) (x : number) :
  List.Forall (fun n => n <> NaN) (x :: xs) ->
  In (foldl num_max x xs) (x :: xs) /\
  forall y, In y (x :: xs) -> num_leb y (foldl num_max x xs) = true.
Proof.
  revert x. induction xs as [|y ys IH]; intros x Hall.
  - simpl. inversion Hall; subst. split; [now left|].
    intros z [<-|[]]. now apply num_leb_refl.
  - inversion Hall as [|? ? Hx Hrest]; subst.
    inversion Hrest as [|? ? Hy Hys]; subst.
    assert (Hm : num_max x y <> NaN)
      by (unfold num_max; destruct (num_leb x y); assumption).
    destruct (IH (num_max x y)) as [Hin Hle]; [now constructor|].
    cbn [foldl]. split.
    + destruct Hin as [Heq|Hin].
      * rewrite <- Heq. unfold num_max.
        destruct (num_leb x y); [right; now left | now left].
      * right; right; exact Hin.
    + intros z Hz.
      assert (Hmx : num_leb x (num_max x y) = true).
      { unfold num_max. destruct (num_leb x y) eqn:E.
        - exact E.
        - now apply num_leb_refl. }
      assert (Hmy : num_leb y (num_max x y) = true).
      { unfold num_max. destruct (num_leb x y) eqn:E.
        - now apply num_leb_refl.
        - now apply num_leb_total. }
      pose proof (Hle (num_max x y) (or_introl eq_refl)) as Hfm.
      destruct Hz as [<-|[<-|Hz]].
      * eapply num_leb_trans; eassumption.
      * eapply num_leb_trans; eassumption.
      * apply Hle. now right.
Qed.

(** What [calculateMaxValue] returns on an array: nothing without data
    points, otherwise two of the data points that bound all of them. *)
Lemma calculateMaxValue_spec (h : heap) (l : loc) (es : list value) :
  h !! l = Some (Arr es) ->
  let pts := data_points h es in
  (pts = [] -> calculateMaxValue h (VRef l) = None) /\
  (pts <> [] ->
   exists m, calculateMaxValue h (VRef l) = Some m /\
     In (min m) pts /\ In (max m) pts /\
     (forall x, In x pts ->
        num_leb (min m) x = true /\ num_leb x (max m) = true) /\
     num_leb (min m) (max m) = true).
Proof.
  intros Hl pts. unfold calculateMaxValue. simpl. rewrite Hl.
  fold pts. pose proof (data_points_not_NaN h es) as Hall. fold pts in Hall.
  destruct pts as [|x xs]; split; try congruence.
  intros _.
  destruct (foldl_num_min_spec xs x Hall) as [Hmin_in Hmin_le].
  destruct (foldl_num_max_spec xs x Hall) as [Hmax_in Hmax_le].
  eexists. split; [reflexivity|]. simpl.
  repeat split; auto.
Qed.

(** ** The store *)

Lemma lookup_alloc_new (h : heap) (o : obj) :
  (h ++ [o]) !! length h = Some o.
Proof. now apply list_lookup_middle. Qed.

Lemma lookup_alloc_old (h : heap) (o o' : obj) (l : loc) :
  h !! l = Some o -> (h ++ [o']) !! l = Some o.
Proof. apply lookup_app_l_Some. Qed.

Lemma lookup_Some_lt (h : heap) (o : obj) (l : loc) :
  h !! l = Some o -> (l < length h)%nat.
Proof. intros H. eapply lookup_lt_Some, H. Qed.

(** ** The four outcomes of the series setter *)

Section SeriesSetter.

Variable w : World.

(** A falsy value: [value || []] allocates an empty array, which is
    scanned and copied. *)
Lemma set_series_falsy (v : value) :
  truthy v = false ->
  set_series w v =
  Ok {| store := (store w ++ [Arr []]) ++ [Arr []];
        this := with_chartSeries
                  (with_minMaxValues
                     (with_series (this w) (VRef (length (store w))))
                     None)
                  (VRef (S (length (store w))));
        trace := trace w |}.
Proof.
  intros Hv. unfold set_series. rewrite Hv. cbn [alloc].
  unfold Array_isArray, calculateMaxValue, elements.
  rewrite lookup_alloc_new. cbn.
  rewrite length_app. cbn. rewrite Nat.add_1_r. reflexivity.
Qed.

(** An array: scanned and copied. *)
Lemma set_series_array (l : loc) (es : list value) :
  store w !! l = Some (Arr es) ->
  set_series w (VRef l) =
  Ok {| store := store w ++ [Arr es];
        this := with_chartSeries
                  (with_minMaxValues
                     (with_series (this w) (VRef l))
                     (calculateMaxValue (store w) (VRef l)))
                  (VRef (length (store w)));
        trace := trace w |}.
Proof.
  intros Hl. unfold set_series. cbn [truthy].
  unfold Array_isArray, elements, alloc. rewrite Hl. reflexivity.
Qed.

(** An object with own keys: a copy of it is wrapped in a new array,
    and [minMaxValues] is not assigned. *)
Lemma set_series_object (l : loc) (ps : list (string * value)) :
  store w !! l = Some (Obj ps) -> ps <> [] ->
  set_series w (VRef l) =
  Ok {| store := (store w ++ [Obj ps]) ++ [Arr [VRef (length (store w))]];
        this := with_chartSeries (with_series (this w) (VRef l))
                  (VRef (S (length (store w))));
        trace := trace w |}.
Proof.
  intros Hl Hps. unfold set_series. cbn [truthy].
  unfold Array_isArray, transformObjectToArrayObject. rewrite Hl.
  cbn [typeof String.eqb Ascii.eqb Bool.eqb Object_keys own_props].
  rewrite Hl. cbn.
  destruct ps as [|p ps]; [congruence|]. cbn.
  rewrite length_app. cbn. rewrite Nat.add_1_r. reflexivity.
Qed.

(** Anything else that is truthy: an empty array, and [minMaxValues] is
    not assigned. *)
Lemma set_series_other (v : value) :
  truthy v = true ->
  Array_isArray (store w) v = false ->
  typeof v <> "object"%string \/ Object_keys (store w) v = Ok [] ->
  set_series w v =
  Ok {| store := store w ++ [Arr []];
        this := with_chartSeries (with_series (this w) v)
                  (VRef (length (store w)));
        trace := trace w |}.
Proof.
  intros Hv Harr Hshape. unfold set_series. rewrite Hv, Harr.
  unfold transformObjectToArrayObject.
  destruct (String.eqb (typeof v) "object") eqn:Ety.
  - destruct Hshape as [Hne|Hkeys].
    + apply String.eqb_eq in Ety. contradiction.
    + rewrite Hkeys. reflexivity.
  - reflexivity.
Qed.

(** Every value is in one of the four cases. *)
Lemma series_cases (v : value) :
  truthy v = false \/
  (exists l es, v = VRef l /\ store w !! l = Some (Arr es)) \/
  (exists l ps, v = VRef l /\ store w !! l = Some (Obj ps) /\ ps <> []) \/
  (truthy v = true /\ Array_isArray (store w) v = false /\
   (typeof v <> "object"%string \/ Object_keys (store w) v = Ok [])).
Proof.
  destruct (truthy v) eqn:Hv; [|now left]. right.
  destruct v as [| |b|n|s|l]; try discriminate.
  - right; right. repeat split; left; discriminate.
  - right; right. repeat split; left; discriminate.
  - right; right. repeat split; left; discriminate.
  - destruct (store w !! l) as [[ps|es]|] eqn:Hl.
    + destruct ps as [|p ps].
      * right; right. cbn. rewrite Hl. repeat split. now right.
      * right; left. exists l, (p :: ps). repeat split; congruence.
    + left. now exists l, es.
    + right; right. cbn. rewrite Hl. repeat split. now right.
Qed.

End SeriesSetter.

(** ** Height *)

(** Truncation drops the fractional part: the floor of a number that is
    not negative, the ceiling of a negative one. *)
Lemma truncate_floor_ceiling (q : Q) :
  truncate q = if 0 <=? Qnum q then Qfloor q else Qceiling q.
Proof.
  destruct q as [n d]. unfold truncate, Qceiling, Qfloor. cbn.
  destruct (Z.leb_spec 0 n) as [Hn|Hn].
  - apply Z.quot_div_nonneg; lia.
  - rewrite <- (Z.opp_involutive n) at 1.
    rewrite Z.quot_opp_l by lia.
    rewrite Z.quot_div_nonneg by lia. reflexivity.
Qed.

Lemma truthy_int (n : Z) : n <> 0 -> truthy (int n) = true.
Proof.
  intros Hn. unfold int, truthy.
  destruct (Qeq_bool (inject_Z n) 0) eqn:E; [|reflexivity].
  apply Qeq_bool_iff in E. unfold Qeq in E. cbn in E. lia.
Qed.

Section Behaviour.

Variable PoChartType : PoChartTypeEnum.

Lemma get_height_stored (c : Component) (n : Z) :
  _height c = int n -> n <> 0 -> get_height PoChartType c = int n.
Proof.
  intros Hh Hn. unfold get_height. rewrite Hh, truthy_int by exact Hn.
  reflexivity.
Qed.

Lemma setDefaultHeight_bound (c : Component) :
  exists n, 200 <= n /\ setDefaultHeight PoChartType c = int n.
Proof.
  unfold setDefaultHeight.
  destruct (strict_equals _ _); eexists; (split; [|reflexivity]);
    unfold poChartMinHeight, poChartDefaultHeight; lia.
Qed.

(** What the resolved height is when the bound value has no integer
    part: the default for the type. *)
Lemma resolveHeight_default (w : World) (v : value) :
  (forall q, v <> VNum (Fin q)) ->
  resolveHeight PoChartType w v = setDefaultHeight PoChartType (this w).
Proof.
  intros Hv. unfold resolveHeight, set_height, get_height.
  destruct v as [| |b|[| | |q]|s|l]; cbn;
    try (exfalso; eapply Hv; reflexivity);
    try reflexivity;
    destruct (setDefaultHeight_bound (this w)) as (n & Hn & E);
    unfold setDefaultHeight, get_type in *; cbn in *;
    rewrite E, truthy_int by lia; reflexivity.
Qed.

Lemma resolveHeight_number (w : World) (q : Q) :
  resolveHeight PoChartType w (VNum (Fin q)) =
  int (if truncate q <=? 200 then 200 else truncate q).
Proof.
  unfold resolveHeight, set_height. cbn.
  unfold poChartMinHeight.
  destruct (Z.leb_spec (truncate q) 200) as [Hle|Hgt].
  - reflexivity.
  - apply get_height_stored; [reflexivity | lia].
Qed.

Lemma resolveHeight_bound (w : World) (v : value) :
  exists n, 200 <= n /\ resolveHeight PoChartType w v = int n.
Proof.
  destruct v as [| |b|[| | |q]|s|l];
    try (rewrite resolveHeight_default by discriminate;
         apply setDefaultHeight_bound).
  rewrite resolveHeight_number.
  destruct (Z.leb_spec (truncate q) 200); eexists;
    (split; [|reflexivity]); lia.
Qed.

(** C2: a bound value that is not a number (missing, null, NaN, any
    other type) resolves to 200 when the chart type is Gauge and to 400
    otherwise; a number is truncated, not rounded, an integer part of
    200 or less gives 200 and a larger one is kept; the resolved height
    is in every case an integer of at least 200; 150 gives 200, 200
    gives 200, 201 gives 201 and 350.7 gives 350. *)
Theorem height_resolved (w : World) (v : value) :
  let default :=
    if strict_equals (get_type (this w)) (Gauge PoChartType)
    then int 200 else int 400 in
  ((forall q, v <> VNum (Fin q)) ->
     resolveHeight PoChartType w v = default) /\
  (forall q, v = VNum (Fin q) ->
     resolveHeight PoChartType w v =
     int (if truncate q <=? 200 then 200 else truncate q)) /\
  (exists n, 200 <= n /\ resolveHeight PoChartType w v = int n) /\
  resolveHeight PoChartType w (int 150) = int 200 /\
  resolveHeight PoChartType w (int 200) = int 200 /\
  resolveHeight PoChartType w (int 201) = int 201 /\
  resolveHeight PoChartType w (VNum (Fin (3507 # 10))) = int 350.
Proof.
  cbn zeta. split; [|split; [|split]].
  - apply resolveHeight_default.
  - intros q ->. apply resolveHeight_number.
  - apply resolveHeight_bound.
  - repeat split; apply resolveHeight_number.
Qed.

(** ** Type *)

Lemma same_value_zero_refl (v : value) : same_value_zero v v = true.
Proof.
  destruct v as [| |b|[| | |q]|s|l]; cbn; try reflexivity.
  - destruct b; reflexivity.
  - apply Qeq_bool_refl.
  - apply String.eqb_refl.
  - apply Nat.eqb_refl.
Qed.

Lemma includes_In (xs : list value) (v : value) :
  In v xs -> includes xs v = true.
Proof.
  intros Hin. unfold includes. apply existsb_exists.
  exists v. split; [exact Hin | apply same_value_zero_refl].
Qed.

(** C4: a value that [Object.values(PoChartType)] includes, in
    particular every member of the enumeration, is stored unchanged;
    any value outside it resolves to Pie; with the sample enumeration,
    "bogus", null and 123 resolve to Pie. *)
Theorem type_resolved (w : World) (v : value) :
  (includes (values PoChartType) v = true ->
     get_type (this (set_type PoChartType w v)) = v) /\
  (In v (values PoChartType) ->
     get_type (this (set_type PoChartType w v)) = v) /\
  (includes (values PoChartType) v = false ->
     get_type (this (set_type PoChartType w v)) = Pie PoChartType) /\
  get_type (this (set_type sample_PoChartType w (VStr "bogus")))
    = Pie sample_PoChartType /\
  get_type (this (set_type sample_PoChartType w VNull))
    = Pie sample_PoChartType /\
  get_type (this (set_type sample_PoChartType w (int 123)))
    = Pie sample_PoChartType.
Proof.
  unfold get_type, set_type. cbn [this rebuildComponent with_this
    with_type _type]. repeat split.
  - intros ->. reflexivity.
  - intros Hin. rewrite (includes_In _ _ Hin). reflexivity.
  - intros ->. reflexivity.
Qed.

(** C9: binding the same valid type twice gives the type of the first
    binding, and leaves the stored and the resolved height, all other
    fields and the store as the first binding left them. *)
Theorem set_type_twice (w : World) (v : value) :
  includes (values PoChartType) v = true ->
  let w1 := set_type PoChartType w v in
  let w2 := set_type PoChartType w1 v in
  get_type (this w1) = v /\
  get_type (this w2) = get_type (this w1) /\
  _height (this w2) = _height (this w) /\
  get_height PoChartType (this w2) = get_height PoChartType (this w1) /\
  this w2 = this w1 /\
  store w2 = store w1.
Proof.
  intros Hv. unfold set_type. rewrite Hv. cbn. repeat split.
Qed.

(** ** Events *)

(** C8: with one listener registered on each emitter, [onSeriesClick]
    and [onSeriesHover] call that listener exactly once, with the
    payload they received, whatever it is, and change nothing else. *)
Theorem series_events_relayed
    (w : World) (click hover : nat) (payload : value) :
  observers (seriesClick (this w)) = [click] ->
  observers (seriesHover (this w)) = [hover] ->
  trace (onSeriesClick w payload) = trace w ++ [Next click payload] /\
  trace (onSeriesHover w payload) = trace w ++ [Next hover payload] /\
  this (onSeriesClick w payload) = this w /\
  this (onSeriesHover w payload) = this w /\
  store (onSeriesClick w payload) = store w /\
  store (onSeriesHover w payload) = store w.
Proof.
  intros Hc Hh. unfold onSeriesClick, onSeriesHover, emit. cbn.
  rewrite Hc, Hh. repeat split.
Qed.

(** ** Series *)

(** The setter returns for every value; it assigns [_series],
    [chartSeries] and at most [minMaxValues], only adds cells to the
    store, and leaves [chartSeries] referring to an array. *)
Lemma set_series_returns (w : World) (v : value) :
  exists w', set_series w v = Ok w' /\
    _height (this w') = _height (this w) /\
    _type (this w') = _type (this w) /\
    _axisOptions (this w') = _axisOptions (this w) /\
    trace w' = trace w /\
    (forall l o, store w !! l = Some o -> store w' !! l = Some o) /\
    (exists a es, chartSeries (this w') = VRef a /\
                  store w' !! a = Some (Arr es)).
Proof.
  destruct (series_cases w v)
    as [Hf|[(l & es & -> & Hl)|[(l & ps & -> & Hl & Hps)|(Ht & Ha & Hs)]]].
  - eexists. split; [apply set_series_falsy, Hf|]. cbn.
    repeat split.
    + intros l o Hl. now apply lookup_alloc_old, lookup_alloc_old.
    + exists (S (length (store w))), [].
      split; [reflexivity|].
      replace (S (length (store w))) with (length (store w ++ [Arr []]))
        by (rewrite length_app; cbn; lia).
      apply lookup_alloc_new.
  - eexists. split; [apply set_series_array, Hl|]. cbn.
    repeat split.
    + intros l0 o Hl0. now apply lookup_alloc_old.
    + exists (length (store w)), es.
      split; [reflexivity | apply lookup_alloc_new].
  - eexists. split; [apply (set_series_object w l ps Hl Hps)|]. cbn.
    repeat split.
    + intros l0 o Hl0. now apply lookup_alloc_old, lookup_alloc_old.
    + exists (S (length (store w))), [VRef (length (store w))].
      split; [reflexivity|].
      replace (S (length (store w))) with (length (store w ++ [Obj ps]))
        by (rewrite length_app; cbn; lia).
      apply lookup_alloc_new.
  - eexists. split; [apply (set_series_other w v Ht Ha Hs)|]. cbn.
    repeat split.
    + intros l0 o Hl0. now apply lookup_alloc_old.
    + exists (length (store w)), [].
      split; [reflexivity | apply lookup_alloc_new].
Qed.

Lemma rebuilds_app (t u : list effect) :
  rebuilds (t ++ u) = (rebuilds t + rebuilds u)%nat.
Proof. unfold rebuilds. now rewrite List.filter_app, length_app. Qed.

Lemma rebuilds_Next (v : value) (ls : list nat) :
  rebuilds (map (fun l => Next l v) ls) = 0%nat.
Proof. induction ls as [|l ls IH]; [reflexivity | exact IH]. Qed.

(** C10: for every value the series setter returns, leaves the stored
    height, the type and the axis options as they were and signals no
    rebuild; the height setter and the type setter each signal one
    rebuild, and the setter of the axis options and the two event
    relays signal none. *)
Theorem series_setter_frame (w : World) (v : value) :
  (exists w', set_series w v = Ok w' /\
     _height (this w') = _height (this w) /\
     _type (this w') = _type (this w) /\
     _axisOptions (this w') = _axisOptions (this w) /\
     get_height PoChartType (this w') = get_height PoChartType (this w) /\
     trace w' = trace w) /\
  rebuilds (trace (set_height PoChartType w v)) = S (rebuilds (trace w)) /\
  rebuilds (trace (set_type PoChartType w v)) = S (rebuilds (trace w)) /\
  rebuilds (trace (set_axisOptions w v)) = rebuilds (trace w) /\
  rebuilds (trace (onSeriesClick w v)) = rebuilds (trace w) /\
  rebuilds (trace (onSeriesHover w v)) = rebuilds (trace w).
Proof.
  split.
  - destruct (set_series_returns w v)
      as (w' & Hw' & Hh & Ht & Ha & Htr & _).
    exists w'. repeat split; try assumption.
    unfold get_height, setDefaultHeight, get_type. now rewrite Hh, Ht.
  - unfold set_height, set_type, set_axisOptions, onSeriesClick,
      onSeriesHover, emit, rebuildComponent, with_this.
    cbn [trace]. rewrite !rebuilds_app, !rebuilds_Next.
    change (rebuilds [RebuildComponent]) with 1%nat.
    repeat split; lia.
Qed.

(** C3: an array bound to the series is kept as [_series] and its
    entries are copied, in order, into the array [chartSeries] refers
    to; [minMaxValues] is undefined when the array is empty or holds no
    data point, and otherwise its [min] and [max] are data points of the
    series that bound every data point, so [min <= max]; the two series
    A = 1, 5, 3 and B = -2, 9 give the same two entries, min -2 and
    max 9. *)
Theorem series_array_scanned (w : World) (l : loc) (es : list value) :
  store w !! l = Some (Arr es) ->
  (exists w' a, set_series w (VRef l) = Ok w' /\
     _series (this w') = VRef l /\
     chartSeries (this w') = VRef a /\
     store w' !! a = Some (Arr es) /\
     (es = [] -> minMaxValues (this w') = None) /\
     (data_points (store w) es = [] -> minMaxValues (this w') = None) /\
     (data_points (store w) es <> [] ->
      exists m, minMaxValues (this w') = Some m /\
        In (min m) (data_points (store w) es) /\
        In (max m) (data_points (store w) es) /\
        (forall x, In x (data_points (store w) es) ->
           num_leb (min m) x = true /\ num_leb x (max m) = true) /\
        num_leb (min m) (max m) = true)) /\
  (exists w' a, set_series sample_world (VRef 6) = Ok w' /\
     chartSeries (this w') = VRef a /\
     store w' !! a = Some (Arr [VRef 3; VRef 5]) /\
     minMaxValues (this w') = Some {| min := Fin (-2); max := Fin 9 |}).
Proof.
  intros Hl. split.
  - eexists _, (length (store w)).
    split; [apply set_series_array, Hl|]. cbn.
    destruct (calculateMaxValue_spec (store w) l es Hl) as [Hnone Hsome].
    repeat split.
    + apply lookup_alloc_new.
    + intros ->. now apply Hnone.
    + exact Hnone.
    + exact Hsome.
  - eexists _, 7%nat. split; [reflexivity|]. repeat split.
Qed.

(** C1, as the component has it: a non-array object with own keys is
    bound as a one-element array holding a shallow copy of it, an object
    in a cell of its own that did not exist before the call, is not the
    caller's and keeps the properties whatever is written to the caller's
    object afterwards; the setter does not assign [minMaxValues], which
    keeps the value it had; on a component whose series were never bound,
    [{value: 42}] gives the collection [[{value: 42}]], its element a
    copy, and an undefined MinMax. *)
Theorem series_object_wrapped
    (w : World) (l : loc) (ps : list (string * value)) :
  store w !! l = Some (Obj ps) -> ps <> [] ->
  (exists w' a c, set_series w (VRef l) = Ok w' /\
     chartSeries (this w') = VRef a /\
     store w !! a = None /\
     store w' !! a = Some (Arr [VRef c]) /\
     c <> l /\
     store w !! c = None /\
     store w' !! c = Some (Obj ps) /\
     store w' !! l = Some (Obj ps) /\
     (forall o, <[l := o]> (store w') !! c = Some (Obj ps)) /\
     minMaxValues (this w') = minMaxValues (this w)) /\
  (exists w' a c, set_series sample_world (VRef 0) = Ok w' /\
     chartSeries (this w') = VRef a /\
     store w' !! a = Some (Arr [VRef c]) /\
     c <> 0%nat /\
     store sample_world !! c = None /\
     store w' !! c = Some (Obj [("value"%string, int 42)]) /\
     minMaxValues (this w') = None).
Proof.
  intros Hl Hps. split.
  - pose proof (lookup_Some_lt _ _ _ Hl) as Hlt.
    assert (Hc : ((store w ++ [Obj ps]) ++ [Arr [VRef (length (store w))]])
                   !! length (store w) = Some (Obj ps))
      by (eapply lookup_alloc_old, lookup_alloc_new).
    eexists _, (S (length (store w))), (length (store w)).
    split; [apply (set_series_object w l ps Hl Hps)|]. cbn.
    repeat split.
    + apply lookup_ge_None. lia.
    + replace (S (length (store w))) with (length (store w ++ [Obj ps]))
        by (rewrite length_app; cbn; lia).
      apply lookup_alloc_new.
    + lia.
    + now apply lookup_ge_None.
    + exact Hc.
    + now apply lookup_alloc_old, lookup_alloc_old.
    + intros o. rewrite list_lookup_insert_ne by lia. exact Hc.
  - eexists _, 8%nat, 7%nat. split; [reflexivity|]. repeat split.
    discriminate.
Qed.

(** C5, as the component has it: a falsy value gives an empty
    collection and MinMax is computed over it, hence undefined; a truthy
    value that is no array and is an object without own keys, or no
    object at all, gives an empty collection and the setter does not
    assign [minMaxValues], which keeps the value it had; on a component
    whose series were never bound, [{}] and null give an empty
    collection and an undefined MinMax. *)
Theorem series_empty (w : World) (v : value) :
  (truthy v = false ->
   exists w' a, set_series w v = Ok w' /\
     chartSeries (this w') = VRef a /\
     store w' !! a = Some (Arr []) /\
     minMaxValues (this w') = None) /\
  (truthy v = true ->
   Array_isArray (store w) v = false ->
   typeof v <> "object"%string \/ Object_keys (store w) v = Ok [] ->
   exists w' a, set_series w v = Ok w' /\
     chartSeries (this w') = VRef a /\
     store w' !! a = Some (Arr []) /\
     minMaxValues (this w') = minMaxValues (this w)) /\
  (exists w' a, set_series sample_world (VRef 1) = Ok w' /\
     chartSeries (this w') = VRef a /\
     store w' !! a = Some (Arr []) /\
     minMaxValues (this w') = None) /\
  (exists w' a, set_series sample_world VNull = Ok w' /\
     chartSeries (this w') = VRef a /\
     store w' !! a = Some (Arr []) /\
     minMaxValues (this w') = None).
Proof.
  split; [|split; [|split]].
  - intros Hv. eexists _, (S (length (store w))).
    split; [apply set_series_falsy, Hv|]. cbn. repeat split.
    replace (S (length (store w))) with (length (store w ++ [Arr []]))
      by (rewrite length_app; cbn; lia).
    apply lookup_alloc_new.
  - intros Ht Ha Hs. eexists _, (length (store w)).
    split; [apply (set_series_other w v Ht Ha Hs)|]. cbn. repeat split.
    apply lookup_alloc_new.
  - eexists _, 7%nat. split; [reflexivity|]. repeat split.
  - eexists _, 8%nat. split; [reflexivity|]. repeat split.
Qed.

(** C6: the series setter changes no cell of the store that existed
    before the call, and the object it wraps is stored as a copy in a
    cell of its own: whatever is written to the caller's object
    afterwards, the stored copy keeps the properties the object had when
    it was bound. *)
Theorem series_input_not_aliased (w : World) (v : value) :
  exists w', set_series w v = Ok w' /\
    (forall l o, store w !! l = Some o -> store w' !! l = Some o) /\
    (forall l ps, v = VRef l -> store w !! l = Some (Obj ps) -> ps <> [] ->
     exists a c, chartSeries (this w') = VRef a /\
       store w' !! a = Some (Arr [VRef c]) /\
       c <> l /\
       store w' !! c = Some (Obj ps) /\
       forall o, <[l := o]> (store w') !! c = Some (Obj ps)).
Proof.
  destruct (set_series_returns w v)
    as (w' & Hw' & _ & _ & _ & _ & Hext & _).
  exists w'. split; [exact Hw'|]. split; [exact Hext|].
  intros l ps -> Hl Hps.
  rewrite (set_series_object w l ps Hl Hps) in Hw'.
  inversion Hw'; subst w'; clear Hw'. cbn.
  pose proof (lookup_Some_lt _ _ _ Hl) as Hlt.
  assert (Hc : ((store w ++ [Obj ps]) ++ [Arr [VRef (length (store w))]])
                 !! length (store w) = Some (Obj ps))
    by (eapply lookup_alloc_old, lookup_alloc_new).
  exists (S (length (store w))), (length (store w)).
  repeat split.
  - replace (S (length (store w))) with (length (store w ++ [Obj ps]))
      by (rewrite length_app; cbn; lia).
    apply lookup_alloc_new.
  - lia.
  - exact Hc.
  - intros o. rewrite list_lookup_insert_ne by lia. exact Hc.
Qed.

End Behaviour.

(** ** The theorems at the sample inputs *)

Lemma set_type_twice_witness :
  includes (values sample_PoChartType) (VStr "gauge") = true /\
  let w1 := set_type sample_PoChartType sample_world (VStr "gauge") in
  let w2 := set_type sample_PoChartType w1 (VStr "gauge") in
  get_type (this w1) = VStr "gauge" /\
  get_type (this w2) = get_type (this w1) /\
  _height (this w2) = _height (this sample_world) /\
  get_height sample_PoChartType (this w2)
    = get_height sample_PoChartType (this w1) /\
  this w2 = this w1 /\
  store w2 = store w1.
Proof.
  split; [reflexivity|].
  apply (set_type_twice sample_PoChartType sample_world (VStr "gauge")).
  reflexivity.
Defined.

Lemma series_events_relayed_witness :
  let w := listening_world 7 8 in
  observers (seriesClick (this w)) = [7%nat] /\
  observers (seriesHover (this w)) = [8%nat] /\
  trace (onSeriesClick w VNull) = trace w ++ [Next 7 VNull] /\
  trace (onSeriesHover w VNull) = trace w ++ [Next 8 VNull] /\
  this (onSeriesClick w VNull) = this w /\
  this (onSeriesHover w VNull) = this w /\
  store (onSeriesClick w VNull) = store w /\
  store (onSeriesHover w VNull) = store w.
Proof.
  cbv zeta. split; [reflexivity|]. split; [reflexivity|].
  apply (series_events_relayed (listening_world 7 8) 7 8 VNull);
    reflexivity.
Defined.

Lemma series_array_scanned_witness :
  store sample_world !! 6%nat = Some (Arr [VRef 3; VRef 5]) /\
  data_points (store sample_world) [VRef 3; VRef 5]
    = [Fin 1; Fin 5; Fin 3; Fin (-2); Fin 9] /\
  exists w' a, set_series sample_world (VRef 6) = Ok w' /\
    _series (this w') = VRef 6 /\
    chartSeries (this w') = VRef a /\
    store w' !! a = Some (Arr [VRef 3; VRef 5]) /\
    exists m, minMaxValues (this w') = Some m /\
      num_leb (min m) (max m) = true /\
      forall x, In x [Fin 1; Fin 5; Fin 3; Fin (-2); Fin 9] ->
        num_leb (min m) x = true /\ num_leb x (max m) = true.
Proof.
  split; [reflexivity|]. split; [reflexivity|].
  destruct (proj1 (series_array_scanned sample_world 6 [VRef 3; VRef 5]
                     eq_refl))
    as (w' & a & Hw' & Hs & Hc & Ha & _ & _ & Hpts).
  destruct Hpts as (m & Hm & _ & _ & Hall & Hle); [discriminate|].
  exists w', a. repeat split; try assumption.
  exists m. repeat split; try assumption; now apply Hall.
Defined.

Lemma series_object_wrapped_witness :
  store sample_world !! 0%nat = Some (Obj [("value"%string, int 42)]) /\
  [("value"%string, int 42)] <> [] /\
  exists w' a c, set_series sample_world (VRef 0) = Ok w' /\
    chartSeries (this w') = VRef a /\
    store sample_world !! a = None /\
    store w' !! a = Some (Arr [VRef c]) /\
    c <> 0%nat /\
    store sample_world !! c = None /\
    store w' !! c = Some (Obj [("value"%string, int 42)]) /\
    store w' !! 0%nat = Some (Obj [("value"%string, int 42)]) /\
    (forall o, <[0%nat := o]> (store w') !! c
               = Some (Obj [("value"%string, int 42)])) /\
    minMaxValues (this w') = minMaxValues (this sample_world).
Proof.
  split; [reflexivity|]. split; [discriminate|].
  apply (proj1 (series_object_wrapped sample_world 0
                  [("value"%string, int 42)] eq_refl ltac:(discriminate))).
Defined.

(** The claim of C1 fails on [{value: 42}]: the component wraps the
    object and leaves MinMax undefined, where the claim has 42 and 42; and
    on a component that charted two series before, MinMax stays that of
    those series and is not the one of the wrapped collection. *)
Lemma series_object_minmax_counterexample :
  (exists w', set_series sample_world (VRef 0) = Ok w' /\
     minMaxValues (this w') = None /\
     minMaxValues (this w') <> Some {| min := Fin 42; max := Fin 42 |}) /\
  (exists w', set_series charted_world (VRef 0) = Ok w' /\
     minMaxValues (this w') = Some {| min := Fin (-2); max := Fin 9 |} /\
     minMaxValues (this w')
       <> calculateMaxValue (store w') (chartSeries (this w'))).
Proof.
  split; eexists; (split; [reflexivity|]); split;
    [reflexivity | discriminate | reflexivity | discriminate].
Qed.

(** The claim of C5 fails on [{}] bound after two series were charted:
    the collection is empty and MinMax is still that of the two series. *)
Lemma series_empty_minmax_counterexample :
  store charted_world !! 1%nat = Some (Obj []) /\
  exists w' a, set_series charted_world (VRef 1) = Ok w' /\
    chartSeries (this w') = VRef a /\
    store w' !! a = Some (Arr []) /\
    minMaxValues (this w') = Some {| min := Fin (-2); max := Fin 9 |} /\
    minMaxValues (this w') <> None.
Proof.
  split; [reflexivity|].
  eexists _, 8%nat. split; [reflexivity|].
  repeat split. discriminate.
Qed.

(** The guard of the setter matters: the helper alone throws on null,
    whose [typeof] is "object". *)
Example transformObjectToArrayObject_null (h : heap) :
  transformObjectToArrayObject h VNull = Throw TypeError.
Proof. reflexivity. Qed.

Lemma height_resolved_witness :
  (forall q, VNull <> VNum (Fin q)) /\
  resolveHeight sample_PoChartType sample_world VNull = int 400 /\
  resolveHeight sample_PoChartType
    (set_type sample_PoChartType sample_world (VStr "gauge")) VNull
    = int 200 /\
  resolveHeight sample_PoChartType sample_world (VNum (Fin (3507 # 10)))
    = int 350.
Proof.
  split; [discriminate|]. split; [|split].
  - apply (proj1 (height_resolved sample_PoChartType sample_world VNull)).
    discriminate.
  - apply (proj1 (height_resolved sample_PoChartType
                    (set_type sample_PoChartType sample_world (VStr "gauge"))
                    VNull)).
    discriminate.
  - apply (proj1 (proj2 (height_resolved sample_PoChartType sample_world
                           (VNum (Fin (3507 # 10)))))
             (3507 # 10)%Q eq_refl).
Defined.

Lemma type_resolved_witness :
  In (VStr "line") (values sample_PoChartType) /\
  includes (values sample_PoChartType) (VStr "bogus") = false /\
  get_type (this (set_type sample_PoChartType sample_world (VStr "line")))
    = VStr "line" /\
  get_type (this (set_type sample_PoChartType sample_world (VStr "bogus")))
    = VStr "pie".
Proof.
  split; [cbn; tauto|]. split; [reflexivity|]. split.
  - apply (proj1 (proj2 (type_resolved sample_PoChartType sample_world
                           (VStr "line")))).
    cbn; tauto.
  - apply (proj1 (proj2 (proj2 (type_resolved sample_PoChartType
                                   sample_world (VStr "bogus"))))).
    reflexivity.
Defined.

Lemma series_empty_witness :
  truthy (VRef 1) = true /\
  Array_isArray (store sample_world) (VRef 1) = false /\
  Object_keys (store sample_world) (VRef 1) = Ok [] /\
  truthy (VStr EmptyString) = false /\
  (exists w' a, set_series sample_world (VRef 1) = Ok w' /\
     chartSeries (this w') = VRef a /\
     store w' !! a = Some (Arr []) /\
     minMaxValues (this w') = minMaxValues (this sample_world)) /\
  (exists w' a, set_series sample_world (VStr EmptyString) = Ok w' /\
     chartSeries (this w') = VRef a /\
     store w' !! a = Some (Arr []) /\
     minMaxValues (this w') = None).
Proof.
  repeat (split; [reflexivity|]). split.
  - apply (proj1 (proj2 (series_empty sample_world (VRef 1))));
      [reflexivity | reflexivity | right; reflexivity].
  - apply (proj1 (series_empty sample_world (VStr EmptyString))). reflexivity.
Defined.

Lemma series_input_not_aliased_witness :
  store sample_world !! 0%nat = Some (Obj [("value"%string, int 42)]) /\
  exists w' a c, set_series sample_world (VRef 0) = Ok w' /\
    chartSeries (this w') = VRef a /\
    store w' !! a = Some (Arr [VRef c]) /\
    c <> 0%nat /\
    store w' !! c = Some (Obj [("value"%string, int 42)]) /\
    forall o, <[0%nat := o]> (store w') !! c
              = Some (Obj [("value"%string, int 42)]).
Proof.
  split; [reflexivity|].
  destruct (series_input_not_aliased sample_world (VRef 0))
    as (w' & Hw' & _ & Hcopy).
  destruct (Hcopy 0%nat [("value"%string, int 42)] eq_refl eq_refl)
    as (a & c & Hcs & Ha & Hne & Hc & Hwrite); [discriminate|].
  exists w', a, c. repeat split; assumption.
Defined.

(** * Further properties of the component *)

(** ** Height and type together *)

Section HeightAndType.

Variable PoChartType : PoChartTypeEnum.

(** What the height setter stores: an integer of at least 200, unless the
    value is a number without an integer part, which stores undefined. *)
Lemma set_height_stored (w : World) (v : value) :
  isTypeof v "number" = false \/ convertToInt v <> None ->
  exists n, 200 <= n /\
    _height (this (set_height PoChartType w v)) = int n /\
    resolveHeight PoChartType w v = int n.
Proof.
  intros Hv.
  destruct (resolveHeight_bound PoChartType w v) as (n & Hn & Hres).
  exists n. split; [exact Hn|]. split; [|exact Hres].
  revert Hres. unfold resolveHeight, get_height, set_height.
  cbn [this rebuildComponent with_this with_height _height].
  destruct (isTypeof v "number") eqn:Ety.
  - destruct Hv as [Hv|Hv]; [discriminate|].
    destruct (convertToInt v) as [i|]; [|congruence].
    cbn [le_int of_int].
    destruct (i <=? poChartMinHeight) eqn:Hle.
    + rewrite (truthy_int poChartMinHeight) by (unfold poChartMinHeight; lia).
      auto.
    + apply Z.leb_gt in Hle. unfold poChartMinHeight in Hle.
      rewrite (truthy_int i) by lia. auto.
  - destruct (setDefaultHeight_bound PoChartType (this w)) as (m & Hm & E).
    rewrite E, truthy_int by lia. auto.
Qed.

Lemma get_height_after_type (w : World) (v t : value) (n : Z) :
  200 <= n -> _height (this (set_height PoChartType w v)) = int n ->
  get_height PoChartType
    (this (set_type PoChartType (set_height PoChartType w v) t)) = int n.
Proof.
  intros Hn Hst. apply get_height_stored; [|lia].
  unfold set_type. cbn [this rebuildComponent with_this with_type _height].
  exact Hst.
Qed.

(** X1: a height bound as anything but NaN or an infinity is frozen: the
    height read after any later binding of the type is the one resolved
    when the height was bound, also when that was the default of the type
    of that moment. *)
Theorem bound_height_survives_type (w : World) (v t : value) :
  isTypeof v "number" = false \/ convertToInt v <> None ->
  get_height PoChartType
    (this (set_type PoChartType (set_height PoChartType w v) t))
  = resolveHeight PoChartType w v.
Proof.
  intros Hv. destruct (set_height_stored w v Hv) as (n & Hn & Hst & Hres).
  rewrite Hres. now apply get_height_after_type.
Qed.

(** X2: NaN bound as height stores no height, whatever was bound before:
    the height read afterwards is the default of the type, and follows
    every later binding of the type. *)
Theorem nan_height_follows_type (w : World) (t : value) :
  _height (this (set_height PoChartType w (VNum NaN))) = VUndefined /\
  resolveHeight PoChartType w (VNum NaN)
    = setDefaultHeight PoChartType (this w) /\
  get_height PoChartType
    (this (set_type PoChartType (set_height PoChartType w (VNum NaN)) t))
  = setDefaultHeight PoChartType (this (set_type PoChartType w t)).
Proof. repeat split. Qed.

(** X3: the order of the bindings matters. On a chart that is not a
    gauge, an undefined height bound before the type Gauge reads 400, and
    bound after it reads 200; a chart whose height was never bound reads
    200 once it is a gauge. *)
Theorem height_type_order (w : World) :
  strict_equals (_type (this w)) (Gauge PoChartType) = false ->
  includes (values PoChartType) (Gauge PoChartType) = true ->
  strict_equals (Gauge PoChartType) (Gauge PoChartType) = true ->
  get_height PoChartType
    (this (set_type PoChartType (set_height PoChartType w VUndefined)
             (Gauge PoChartType))) = int 400 /\
  get_height PoChartType
    (this (set_height PoChartType (set_type PoChartType w (Gauge PoChartType))
             VUndefined)) = int 200 /\
  (truthy (_height (this w)) = false ->
   get_height PoChartType (this (set_type PoChartType w (Gauge PoChartType)))
   = int 200).
Proof.
  intros Hty Hin Hrefl. split; [|split].
  - apply get_height_after_type; [lia|].
    unfold set_height, setDefaultHeight, get_type. cbn. now rewrite Hty.
  - unfold set_height, set_type, get_height, setDefaultHeight, get_type.
    cbn. rewrite Hin, Hrefl. reflexivity.
  - intros Hh. unfold set_type, get_height, setDefaultHeight, get_type.
    cbn. rewrite Hh, Hin, Hrefl. reflexivity.
Qed.

(** X4: the setters of the height, the type and the axis options
    overwrite: after two bindings in a row the component is the one the
    last binding alone gives, and only the number of rebuild signals
    tells that there were two. *)
Theorem last_binding_wins (w : World) (u v : value) :
  this (set_height PoChartType (set_height PoChartType w u) v)
    = this (set_height PoChartType w v) /\
  this (set_type PoChartType (set_type PoChartType w u) v)
    = this (set_type PoChartType w v) /\
  this (set_axisOptions (set_axisOptions w u) v)
    = this (set_axisOptions w v) /\
  rebuilds (trace (set_height PoChartType (set_height PoChartType w u) v))
    = S (rebuilds (trace (set_height PoChartType w v))) /\
  rebuilds (trace (set_type PoChartType (set_type PoChartType w u) v))
    = S (rebuilds (trace (set_type PoChartType w v))).
Proof.
  unfold set_height, set_type, set_axisOptions, rebuildComponent, with_this,
    setDefaultHeight, get_type.
  cbn [this trace store with_height with_type with_axisOptions _type
       _height _axisOptions _series minMaxValues chartSeries categories
       title seriesClick seriesHover].
  rewrite !rebuilds_app. change (rebuilds [RebuildComponent]) with 1%nat.
  repeat split; lia.
Qed.

End HeightAndType.

(** ** The helper that wraps a single series *)



(** ** What the series setter keeps of the bound value *)

(** X7: the getter of the series gives back the bound value itself when
    it is truthy, and a new empty array when it is falsy: null,
    undefined, 0, NaN, false and the empty string are not read back. *)
Theorem series_read_back (w : World) (v : value) :
  exists w', set_series w v = Ok w' /\
    (truthy v = true -> get_series (this w') = v) /\
    (truthy v = false ->
     get_series (this w') = VRef (length (store w)) /\
     store w !! length (store w) = None /\
     store w' !! length (store w) = Some (Arr [])).
Proof.
  destruct (series_cases w v)
    as [Hf|[(l & es & -> & Hl)|[(l & ps & -> & Hl & Hps)|(Ht & Ha & Hs)]]].
  - eexists. split; [apply set_series_falsy, Hf|]. cbn. split.
    + congruence.
    + intros _. repeat split.
      * now apply lookup_ge_None.
      * eapply lookup_alloc_old, lookup_alloc_new.
  - eexists. split; [apply set_series_array, Hl|]. cbn.
    split; [reflexivity | discriminate].
  - eexists. split; [apply (set_series_object w l ps Hl Hps)|]. cbn.
    split; [reflexivity | discriminate].
  - eexists. split; [apply (set_series_other w v Ht Ha Hs)|]. cbn.
    split; [reflexivity | congruence].
Qed.

(** X8: the collection the component draws from is an array of its own:
    for every value that refers to nothing outside the store,
    [chartSeries] is a reference that did not exist before the call and
    is not the one the getter of the series returns, so that a write to
    the collection changes neither the bound array nor any cell the
    caller had. *)
Theorem chartSeries_is_own_array (w : World) (v : value) :
  (forall l, v = VRef l -> (l < length (store w))%nat) ->
  exists w' a es, set_series w v = Ok w' /\
    chartSeries (this w') = VRef a /\
    store w' !! a = Some (Arr es) /\
    store w !! a = None /\
    get_series (this w') <> VRef a /\
    (forall l o o', store w !! l = Some o ->
       <[a := o']> (store w') !! l = Some o) /\
    (forall l o', get_series (this w') = VRef l ->
       <[a := o']> (store w') !! l = store w' !! l).
Proof.
  intros Hwf.
  assert (Hfresh : forall k l o (h' : heap) o',
            store w !! l = Some o ->
            (forall l0 o0, store w !! l0 = Some o0 -> h' !! l0 = Some o0) ->
            <[(length (store w) + k)%nat := o']> h' !! l = Some o).
  { intros k l o h' o' Hl Hext.
    rewrite list_lookup_insert_ne
      by (apply lookup_Some_lt in Hl; lia).
    now apply Hext. }
  destruct (series_cases w v)
    as [Hf|[(l & es & -> & Hl)|[(l & ps & -> & Hl & Hps)|(Ht & Ha & Hs)]]].
  - exists {| store := (store w ++ [Arr []]) ++ [Arr []];
              this := with_chartSeries
                        (with_minMaxValues
                           (with_series (this w) (VRef (length (store w))))
                           None)
                        (VRef (S (length (store w))));
              trace := trace w |}, (S (length (store w))), [].
    split; [apply set_series_falsy, Hf|]. cbn. repeat split.
    + replace (S (length (store w))) with (length (store w ++ [Arr []]))
        by (rewrite length_app; cbn; lia).
      apply lookup_alloc_new.
    + apply lookup_ge_None. lia.
    + intros E. inversion E. lia.
    + intros l o o' Hl. replace (S (length (store w)))
        with (length (store w) + 1)%nat by lia.
      apply Hfresh; [exact Hl|].
      intros l0 o0 Hl0. now apply lookup_alloc_old, lookup_alloc_old.
    + intros l o' E. inversion E; subst l.
      rewrite list_lookup_insert_ne by lia. reflexivity.
  - exists {| store := store w ++ [Arr es];
              this := with_chartSeries
                        (with_minMaxValues
                           (with_series (this w) (VRef l))
                           (calculateMaxValue (store w) (VRef l)))
                        (VRef (length (store w)));
              trace := trace w |}, (length (store w)), es.
    split; [apply set_series_array, Hl|]. cbn.
    pose proof (lookup_Some_lt _ _ _ Hl) as Hlt. repeat split.
    + apply lookup_alloc_new.
    + now apply lookup_ge_None.
    + intros E. inversion E. lia.
    + intros l0 o o' Hl0. replace (length (store w))
        with (length (store w) + 0)%nat at 1 by lia.
      apply Hfresh; [exact Hl0|].
      intros l1 o1 Hl1. now apply lookup_alloc_old.
    + intros l0 o' E. inversion E; subst l0.
      rewrite list_lookup_insert_ne by lia. reflexivity.
  - exists {| store := (store w ++ [Obj ps])
                         ++ [Arr [VRef (length (store w))]];
              this := with_chartSeries (with_series (this w) (VRef l))
                        (VRef (S (length (store w))));
              trace := trace w |}, (S (length (store w))),
           [VRef (length (store w))].
    split; [apply (set_series_object w l ps Hl Hps)|]. cbn.
    pose proof (lookup_Some_lt _ _ _ Hl) as Hlt. repeat split.
    + replace (S (length (store w))) with (length (store w ++ [Obj ps]))
        by (rewrite length_app; cbn; lia).
      apply lookup_alloc_new.
    + apply lookup_ge_None. lia.
    + intros E. inversion E. lia.
    + intros l0 o o' Hl0. replace (S (length (store w)))
        with (length (store w) + 1)%nat by lia.
      apply Hfresh; [exact Hl0|].
      intros l1 o1 Hl1. now apply lookup_alloc_old, lookup_alloc_old.
    + intros l0 o' E. inversion E; subst l0.
      rewrite list_lookup_insert_ne by lia. reflexivity.
  - exists {| store := store w ++ [Arr []];
              this := with_chartSeries (with_series (this w) v)
                        (VRef (length (store w)));
              trace := trace w |}, (length (store w)), [].
    split; [apply (set_series_other w v Ht Ha Hs)|]. cbn. repeat split.
    + apply lookup_alloc_new.
    + now apply lookup_ge_None.
    + intros E. specialize (Hwf _ E). lia.
    + intros l0 o o' Hl0. replace (length (store w))
        with (length (store w) + 0)%nat at 1 by lia.
      apply Hfresh; [exact Hl0|].
      intros l1 o1 Hl1. now apply lookup_alloc_old.
    + intros l0 o' E. specialize (Hwf _ E).
      rewrite list_lookup_insert_ne by lia. reflexivity.
Qed.

(** ** Sessions *)

Lemma set_series_appends (w : World) (v : value) :
  exists w' k, set_series w v = Ok w' /\
    store w' = store w ++ k /\
    _height (this w') = _height (this w) /\
    _type (this w') = _type (this w) /\
    trace w' = trace w /\
    chartSeries_ok w'.
Proof.
  destruct (set_series_returns w v)
    as (w' & Hw' & Hh & Ht & _ & Htr & _ & Hcs).
  exists w'.
  destruct (series_cases w v)
    as [Hf|[(l & es & -> & Hl)|[(l & ps & -> & Hl & Hps)|(Hv & Ha & Hs)]]].
  - exists [Arr []; Arr []]. repeat split; try assumption.
    rewrite (set_series_falsy w v Hf) in Hw'. inversion Hw'; subst w'. cbn.
    now rewrite <- app_assoc.
  - exists [Arr es]. repeat split; try assumption.
    rewrite (set_series_array w l es Hl) in Hw'. now inversion Hw'.
  - exists [Obj ps; Arr [VRef (length (store w))]].
    repeat split; try assumption.
    rewrite (set_series_object w l ps Hl Hps) in Hw'.
    inversion Hw'; subst w'. cbn. now rewrite <- app_assoc.
  - exists [Arr []]. repeat split; try assumption.
    rewrite (set_series_other w v Hv Ha Hs) in Hw'. now inversion Hw'.
Qed.

Lemma chartSeries_ok_grows (w w' : World) (k : heap) :
  chartSeries (this w') = chartSeries (this w) ->
  store w' = store w ++ k ->
  chartSeries_ok w -> chartSeries_ok w'.
Proof.
  intros Hc Hs (a & es & Ha & Hl). exists a, es.
  rewrite Hc, Hs. split; [exact Ha | now apply lookup_app_l_Some].
Qed.

Section Sessions.

Variable PoChartType : PoChartTypeEnum.

Lemma set_height_keeps_ok (w : World) (v : value) :
  height_stored_ok (this (set_height PoChartType w v)).
Proof.
  unfold height_stored_ok, set_height.
  cbn [this rebuildComponent with_this with_height _height].
  destruct (isTypeof v "number").
  - destruct (convertToInt v) as [i|]; cbn [le_int of_int]; [|now left].
    destruct (Z.leb_spec i poChartMinHeight) as [Hle|Hgt];
      right; eexists; (split; [|reflexivity]);
      unfold poChartMinHeight in *; lia.
  - right. apply setDefaultHeight_bound.
Qed.

Lemma get_height_of_ok (c : Component) :
  height_stored_ok c ->
  exists n, 200 <= n /\ get_height PoChartType c = int n.
Proof.
  intros [Hu|(n & Hn & E)].
  - unfold get_height. rewrite Hu. apply setDefaultHeight_bound.
  - exists n. split; [exact Hn|]. apply get_height_stored; [exact E | lia].
Qed.

(** One input: the call returns, appends to the store, signals a rebuild
    exactly when the input is the height or the type, and keeps what
    holds of the stored height, of the type and of [chartSeries]. *)
Lemma bind_input_step (w : World) (i : input) :
  exists w' k, bind_input PoChartType w i = Ok w' /\
    store w' = store w ++ k /\
    rebuilds (trace w')
      = (rebuilds (trace w) + (if rebuilding i then 1 else 0))%nat /\
    (height_stored_ok (this w) -> height_stored_ok (this w')) /\
    (includes (values PoChartType) (Pie PoChartType) = true ->
     includes (values PoChartType) (_type (this w)) = true ->
     includes (values PoChartType) (_type (this w')) = true) /\
    (chartSeries_ok w \/ (exists v, i = PSeries v) -> chartSeries_ok w').
Proof.
  destruct i as [v|v|v|v|v|v|l|l|e|e];
    try (eexists _, []; split; [reflexivity|];
         split; [cbn; now rewrite app_nil_r|];
         split; [cbn [bind_input rebuilding]; unfold set_height, set_type,
                   set_axisOptions, onSeriesClick, onSeriesHover, emit,
                   rebuildComponent, with_this; cbn [trace];
                 rewrite ?rebuilds_app, ?rebuilds_Next;
                 change (rebuilds [RebuildComponent]) with 1%nat; lia|]).
  - split; [intros _; apply set_height_keeps_ok|].
    split; [auto|].
    intros [H|(v' & E)]; [|discriminate].
    eapply (chartSeries_ok_grows w _ []); [reflexivity| |exact H].
    cbn. now rewrite app_nil_r.
  - destruct (set_series_appends w v) as (w' & k & Hw' & Hs & Hh & Ht & Htr & Hcs).
    exists w', k. split; [exact Hw'|]. split; [exact Hs|].
    split; [cbn; rewrite Htr; lia|].
    unfold height_stored_ok. rewrite Hh, Ht. auto.
  - split; [auto|]. split; [auto|].
    intros [H|(v' & E)]; [|discriminate].
    eapply (chartSeries_ok_grows w _ []); [reflexivity| |exact H].
    cbn. now rewrite app_nil_r.
  - split; [auto|]. split; [auto|].
    intros [H|(v' & E)]; [|discriminate].
    eapply (chartSeries_ok_grows w _ []); [reflexivity| |exact H].
    cbn. now rewrite app_nil_r.
  - split; [auto|].
    split.
    { intros HPie _. unfold set_type. cbn.
      destruct (includes (values PoChartType) v) eqn:E; assumption. }
    intros [H|(v' & E)]; [|discriminate].
    eapply (chartSeries_ok_grows w _ []); [reflexivity| |exact H].
    cbn. now rewrite app_nil_r.
  - split; [auto|]. split; [auto|].
    intros [H|(v' & E)]; [|discriminate].
    eapply (chartSeries_ok_grows w _ []); [reflexivity| |exact H].
    cbn. now rewrite app_nil_r.
  - split; [auto|]. split; [auto|].
    intros [H|(v' & E)]; [|discriminate].
    eapply (chartSeries_ok_grows w _ []); [reflexivity| |exact H].
    cbn. now rewrite app_nil_r.
  - split; [auto|]. split; [auto|].
    intros [H|(v' & E)]; [|discriminate].
    eapply (chartSeries_ok_grows w _ []); [reflexivity| |exact H].
    cbn. now rewrite app_nil_r.
  - split; [auto|]. split; [auto|].
    intros [H|(v' & E)]; [|discriminate].
    eapply (chartSeries_ok_grows w _ []); [reflexivity| |exact H].
    cbn. now rewrite app_nil_r.
  - split; [auto|]. split; [auto|].
    intros [H|(v' & E)]; [|discriminate].
    eapply (chartSeries_ok_grows w _ []); [reflexivity| |exact H].
    cbn. now rewrite app_nil_r.
Qed.

(** The same along a session. *)
Lemma bind_inputs_steps (inputs : list input) (w : World) :
  exists w' k, bind_inputs PoChartType w inputs = Ok w' /\
    store w' = store w ++ k /\
    rebuilds (trace w')
      = (rebuilds (trace w) + length (List.filter rebuilding inputs))%nat /\
    (height_stored_ok (this w) -> height_stored_ok (this w')) /\
    (includes (values PoChartType) (Pie PoChartType) = true ->
     includes (values PoChartType) (_type (this w)) = true ->
     includes (values PoChartType) (_type (this w')) = true) /\
    (chartSeries_ok w \/ (exists v, In (PSeries v) inputs) ->
     chartSeries_ok w').
Proof.
  revert w. induction inputs as [|i rest IH]; intros w.
  - exists w, []. cbn. rewrite app_nil_r, Nat.add_0_r.
    repeat split; auto.
    intros [H|(v & [])]. exact H.
  - destruct (bind_input_step w i)
      as (w1 & k1 & Hw1 & Hs1 & Hr1 & Hh1 & Ht1 & Hc1).
    destruct (IH w1) as (w' & k & Hw' & Hs & Hr & Hh & Ht & Hc).
    exists w', (k1 ++ k). cbn [bind_inputs]. rewrite Hw1.
    cbn [mbind result_bind]. split; [exact Hw'|].
    split; [now rewrite Hs, Hs1, app_assoc|].
    split.
    { rewrite Hr, Hr1. cbn [List.filter].
      destruct (rebuilding i); cbn [length]; lia. }
    split; [auto|]. split; [auto|].
    intros [H|(v & [E|Hin])].
    + apply Hc. left. apply Hc1. now left.
    + apply Hc. left. apply Hc1. right. now exists v.
    + apply Hc. right. now exists v.
Qed.

(** An input other than the series leaves the three fields of the series
    setter as they are. *)
Lemma bind_inputs_without_series (inputs : list input) (w : World) :
  (forall v, ~ In (PSeries v) inputs) ->
  exists w', bind_inputs PoChartType w inputs = Ok w' /\
    _series (this w') = _series (this w) /\
    chartSeries (this w') = chartSeries (this w) /\
    minMaxValues (this w') = minMaxValues (this w).
Proof.
  revert w. induction inputs as [|i rest IH]; intros w Hno.
  - exists w. repeat split.
  - assert (Hrest : forall v, ~ In (PSeries v) rest)
      by (intros v Hin; apply (Hno v); now right).
    destruct i as [v|v|v|v|v|v|l|l|e|e];
      try (cbn [bind_inputs bind_input mbind result_bind];
           match goal with
           | |- context [bind_inputs _ ?w1 rest] =>
               destruct (IH w1 Hrest) as (w' & Hw' & H1 & H2 & H3)
           end;
           exists w'; split; [exact Hw'|];
           rewrite H1, H2, H3; repeat split).
    exfalso. apply (Hno v). now left.
Qed.

(** X9: along a session over data the component only adds cells to the
    store: whatever the inputs and their order, the store it leaves is
    the one it found with new cells appended, and no cell the caller had
    is written or removed. *)
Theorem session_store_kept (w : World) (inputs : list input) :
  exists w' k, bind_inputs PoChartType w inputs = Ok w' /\
    store w' = store w ++ k /\
    (forall l o, store w !! l = Some o -> store w' !! l = Some o).
Proof.
  destruct (bind_inputs_steps inputs w) as (w' & k & Hw' & Hs & _).
  exists w', k. split; [exact Hw'|]. split; [exact Hs|].
  intros l o Hl. rewrite Hs. now apply lookup_app_l_Some.
Qed.

(** X10: along a session the component signals one rebuild for each
    binding of the height and of the type, and none for any other input:
    series, categories, title, axis options, subscriptions, clicks and
    hovers. *)
Theorem session_rebuilds_counted (w : World) (inputs : list input) :
  exists w', bind_inputs PoChartType w inputs = Ok w' /\
    rebuilds (trace w')
    = (rebuilds (trace w) + length (List.filter rebuilding inputs))%nat.
Proof.
  destruct (bind_inputs_steps inputs w) as (w' & k & Hw' & _ & Hr & _).
  now exists w'.
Qed.

(** X11: whatever was bound to a component since it was created, in
    whatever order, the height it reads is an integer of at least 200. *)
Theorem session_height_bounded (h : heap) (inputs : list input) :
  exists w' n, bind_inputs PoChartType (created PoChartType h) inputs = Ok w' /\
    200 <= n /\ get_height PoChartType (this w') = int n.
Proof.
  destruct (bind_inputs_steps inputs (created PoChartType h))
    as (w' & k & Hw' & _ & _ & Hh & _).
  destruct (get_height_of_ok (this w')) as (n & Hn & E).
  { apply Hh. now left. }
  now exists w', n.
Qed.

(** X12: when Pie is a value of the enumeration, the type of a component
    is one at every moment: after any session since it was created,
    [Object.values(PoChartType)] includes the type read. *)
Theorem session_type_member (h : heap) (inputs : list input) :
  includes (values PoChartType) (Pie PoChartType) = true ->
  exists w', bind_inputs PoChartType (created PoChartType h) inputs = Ok w' /\
    includes (values PoChartType) (get_type (this w')) = true.
Proof.
  intros HPie.
  destruct (bind_inputs_steps inputs (created PoChartType h))
    as (w' & k & Hw' & _ & _ & _ & Ht & _).
  exists w'. split; [exact Hw'|]. unfold get_type. now apply Ht.
Qed.

(** X13: [chartSeries] is undefined, and so are the series and MinMax,
    as long as no series was bound, and refers to an array of the store
    from the first binding of the series on, whatever was bound. *)
Theorem session_chartSeries (h : heap) (inputs : list input) :
  exists w', bind_inputs PoChartType (created PoChartType h) inputs = Ok w' /\
    ((forall v, ~ In (PSeries v) inputs) ->
     chartSeries (this w') = VUndefined /\
     get_series (this w') = VUndefined /\
     minMaxValues (this w') = None) /\
    ((exists v, In (PSeries v) inputs) ->
     exists a es, chartSeries (this w') = VRef a /\
                  store w' !! a = Some (Arr es)).
Proof.
  destruct (bind_inputs_steps inputs (created PoChartType h))
    as (w' & k & Hw' & _ & _ & _ & _ & Hc).
  exists w'. split; [exact Hw'|]. split.
  - intros Hno.
    destruct (bind_inputs_without_series inputs (created PoChartType h) Hno)
      as (w'' & Hw'' & H1 & H2 & H3).
    rewrite Hw' in Hw''. inversion Hw''; subst w''.
    unfold get_series. rewrite H1, H2, H3. repeat split.
  - intros Hin. apply Hc. now right.
Qed.

(** X14: the series setter commutes with the setters of the type, of the
    height and of the axis options: bound before or after the series,
    they leave the same component, store and trace. *)
Theorem series_binding_commutes (w : World) (v u : value) :
  set_series (set_type PoChartType w u) v
    = (w' ← set_series w v; Ok (set_type PoChartType w' u)) /\
  set_series (set_height PoChartType w u) v
    = (w' ← set_series w v; Ok (set_height PoChartType w' u)) /\
  set_series (set_axisOptions w u) v
    = (w' ← set_series w v; Ok (set_axisOptions w' u)).
Proof.
  destruct (series_cases w v)
    as [Hf|[(l & es & -> & Hl)|[(l & ps & -> & Hl & Hps)|(Hv & Ha & Hs)]]].
  - rewrite !set_series_falsy by exact Hf. repeat split.
  - rewrite (set_series_array w l es Hl),
      (set_series_array (set_type PoChartType w u) l es Hl),
      (set_series_array (set_height PoChartType w u) l es Hl),
      (set_series_array (set_axisOptions w u) l es Hl).
    repeat split.
  - rewrite (set_series_object w l ps Hl Hps),
      (set_series_object (set_type PoChartType w u) l ps Hl Hps),
      (set_series_object (set_height PoChartType w u) l ps Hl Hps),
      (set_series_object (set_axisOptions w u) l ps Hl Hps).
    repeat split.
  - rewrite (set_series_other w v Hv Ha Hs),
      (set_series_other (set_type PoChartType w u) v Hv Ha Hs),
      (set_series_other (set_height PoChartType w u) v Hv Ha Hs),
      (set_series_other (set_axisOptions w u) v Hv Ha Hs).
    repeat split.
Qed.

End Sessions.

(** ** The further properties at the sample inputs *)

Lemma bound_height_survives_type_witness :
  (isTypeof VUndefined "number" = false \/ convertToInt VUndefined <> None) /\
  get_height sample_PoChartType
    (this (set_type sample_PoChartType
             (set_height sample_PoChartType sample_world VUndefined)
             (VStr "gauge")))
  = int 400.
Proof.
  split; [left; reflexivity|].
  apply (bound_height_survives_type sample_PoChartType sample_world
           VUndefined (VStr "gauge")).
  left; reflexivity.
Defined.

Lemma height_type_order_witness :
  strict_equals (_type (this sample_world)) (Gauge sample_PoChartType)
    = false /\
  includes (values sample_PoChartType) (Gauge sample_PoChartType) = true /\
  strict_equals (Gauge sample_PoChartType) (Gauge sample_PoChartType)
    = true /\
  get_height sample_PoChartType
    (this (set_type sample_PoChartType
             (set_height sample_PoChartType sample_world VUndefined)
             (Gauge sample_PoChartType))) = int 400 /\
  get_height sample_PoChartType
    (this (set_height sample_PoChartType
             (set_type sample_PoChartType sample_world
                (Gauge sample_PoChartType))
             VUndefined)) = int 200 /\
  (truthy (_height (this sample_world)) = false ->
   get_height sample_PoChartType
     (this (set_type sample_PoChartType sample_world
              (Gauge sample_PoChartType))) = int 200).
Proof.
  repeat (split; [reflexivity|]).
  apply (height_type_order sample_PoChartType sample_world); reflexivity.
Defined.


Lemma chartSeries_is_own_array_witness :
  (forall l, VRef 6 = VRef l -> (l < length (store sample_world))%nat) /\
  exists w' a es, set_series sample_world (VRef 6) = Ok w' /\
    chartSeries (this w') = VRef a /\
    store w' !! a = Some (Arr es) /\
    store sample_world !! a = None /\
    get_series (this w') <> VRef a /\
    (forall l o o', store sample_world !! l = Some o ->
       <[a := o']> (store w') !! l = Some o) /\
    (forall l o', get_series (this w') = VRef l ->
       <[a := o']> (store w') !! l = store w' !! l).
Proof.
  assert (Hwf : forall l, VRef 6 = VRef l ->
                  (l < length (store sample_world))%nat)
    by (intros l E; inversion E; cbn; lia).
  split; [exact Hwf|].
  exact (chartSeries_is_own_array sample_world (VRef 6) Hwf).
Defined.

Lemma session_type_member_witness :
  includes (values sample_PoChartType) (Pie sample_PoChartType) = true /\
  exists w',
    bind_inputs sample_PoChartType (created sample_PoChartType sample_store)
      sample_inputs = Ok w' /\
    includes (values sample_PoChartType) (get_type (this w')) = true.
Proof.
  split; [reflexivity|].
  apply (session_type_member sample_PoChartType sample_store sample_inputs).
  reflexivity.
Defined.

Lemma session_chartSeries_witness :
  In (PSeries (VRef 0)) sample_inputs /\
  exists w' a es,
    bind_inputs sample_PoChartType (created sample_PoChartType sample_store)
      sample_inputs = Ok w' /\
    chartSeries (this w') = VRef a /\
    store w' !! a = Some (Arr es).
Proof.
  assert (Hin : In (PSeries (VRef 0)) sample_inputs) by (cbn; tauto).
  split; [exact Hin|].
  destruct (session_chartSeries sample_PoChartType sample_store sample_inputs)
    as (w' & Hw' & _ & Hsome).
  destruct Hsome as (a & es & Ha & Hl); [now exists (VRef 0)|].
  now exists w', a, es.
Defined.

(** The sample session, run: the click reaches the one listener with the
    payload, two heights and one type were bound, the height read is the
    gauge's default since NaN was bound last, and MinMax was never
    computed. *)
Example sample_session :
  exists w',
    bind_inputs sample_PoChartType (created sample_PoChartType sample_store)
      sample_inputs = Ok w' /\
    trace w' = [RebuildComponent; RebuildComponent; RebuildComponent;
                Next 7 (VRef 0)] /\
    get_height sample_PoChartType (this w') = int 200 /\
    get_type (this w') = VStr "gauge" /\
    title (this w') = VStr "load" /\
    minMaxValues (this w') = None.
Proof. eexists. split; [reflexivity|]. repeat split. Qed.

(** ** Listeners along a session *)

Lemma calls_to_app (l : nat) (t u : list effect) :
  calls_to l (t ++ u) = calls_to l t ++ calls_to l u.
Proof. apply flat_map_app. Qed.

Lemma calls_to_emit (l : nat) (e : value) (obs : list nat) :
  calls_to l (map (fun l' => Next l' e) obs)
  = repeat e (count_occ Nat.eq_dec obs l).
Proof.
  unfold calls_to. induction obs as [|o obs IH]; [reflexivity|].
  cbn [map flat_map count_occ]. rewrite IH.
  destruct (Nat.eq_dec o l) as [->|Hne].
  - now rewrite Nat.eqb_refl.
  - apply Nat.eqb_neq in Hne. now rewrite Hne.
Qed.

Lemma set_series_listeners (w : World) (v : value) :
  exists w', set_series w v = Ok w' /\
    seriesClick (this w') = seriesClick (this w) /\
    seriesHover (this w') = seriesHover (this w) /\
    trace w' = trace w.
Proof.
  destruct (series_cases w v)
    as [Hf|[(l & es & -> & Hl)|[(l & ps & -> & Hl & Hps)|(Hv & Ha & Hs)]]].
  - eexists. split; [apply set_series_falsy, Hf|]. repeat split.
  - eexists. split; [apply set_series_array, Hl|]. repeat split.
  - eexists. split; [apply (set_series_object w l ps Hl Hps)|].
    repeat split.
  - eexists. split; [apply (set_series_other w v Hv Ha Hs)|].
    repeat split.
Qed.

Section Listeners.

Variable PoChartType : PoChartTypeEnum.
Variable l : nat.

(** One input that does not subscribe [l]: the subscriptions of [l] stay
    as they are, and [l] is called once for each of its subscriptions to
    the emitter of the event reported, if one is. *)
Lemma bind_input_calls (w : World) (i : input) :
  i <> PSeriesClick l -> i <> PSeriesHover l ->
  exists w', bind_input PoChartType w i = Ok w' /\
    count_occ Nat.eq_dec (observers (seriesClick (this w'))) l
      = count_occ Nat.eq_dec (observers (seriesClick (this w))) l /\
    count_occ Nat.eq_dec (observers (seriesHover (this w'))) l
      = count_occ Nat.eq_dec (observers (seriesHover (this w))) l /\
    calls_to l (trace w')
      = calls_to l (trace w) ++
        match i with
        | SeriesClick e =>
            repeat e (count_occ Nat.eq_dec (observers (seriesClick (this w))) l)
        | SeriesHover e =>
            repeat e (count_occ Nat.eq_dec (observers (seriesHover (this w))) l)
        | _ => []
        end.
Proof.
  intros Hc Hh.
  destruct i as [v|v|v|v|v|v|l'|l'|e|e];
    try (eexists; split; [reflexivity|];
         unfold set_height, set_type, set_axisOptions, onSeriesClick,
           onSeriesHover, emit, rebuildComponent, with_this;
         cbn [this trace seriesClick seriesHover with_height with_type
              with_axisOptions with_categories with_title];
         rewrite ?calls_to_app, ?calls_to_emit;
         cbn [calls_to flat_map]; rewrite ?app_nil_r;
         repeat split; fail).
  - destruct (set_series_listeners w v) as (w' & Hw' & H1 & H2 & H3).
    exists w'. split; [exact Hw'|]. rewrite H1, H2, H3, app_nil_r.
    repeat split.
  - eexists. split; [reflexivity|]. cbn.
    rewrite count_occ_app, app_nil_r. cbn.
    destruct (Nat.eq_dec l' l) as [->|Hne]; [congruence|].
    rewrite Nat.add_0_r. repeat split.
  - eexists. split; [reflexivity|]. cbn.
    rewrite count_occ_app, app_nil_r. cbn.
    destruct (Nat.eq_dec l' l) as [->|Hne]; [congruence|].
    rewrite Nat.add_0_r. repeat split.
Qed.

(** X15: a listener subscribed once to the clicks and not to the hovers
    is called, along any session in which it does not subscribe again,
    once for each click the chart reports, with the payload of that
    click, in the order of the clicks, and for nothing else. *)
Theorem listener_gets_the_clicks (w : World) (inputs : list input) :
  count_occ Nat.eq_dec (observers (seriesClick (this w))) l = 1%nat ->
  ~ In l (observers (seriesHover (this w))) ->
  ~ In (PSeriesClick l) inputs ->
  ~ In (PSeriesHover l) inputs ->
  exists w', bind_inputs PoChartType w inputs = Ok w' /\
    calls_to l (trace w') = calls_to l (trace w) ++ clicks inputs.
Proof.
  intros Hclick Hhover. apply (count_occ_not_In Nat.eq_dec) in Hhover.
  revert w Hclick Hhover.
  induction inputs as [|i rest IH]; intros w Hclick Hhover Hnc Hnh.
  - exists w. cbn. now rewrite app_nil_r.
  - destruct (bind_input_calls w i) as (w1 & Hw1 & Hc1 & Hh1 & Hcalls).
    { intros ->. apply Hnc. now left. }
    { intros ->. apply Hnh. now left. }
    destruct (IH w1) as (w' & Hw' & Hrest).
    { now rewrite Hc1. }
    { now rewrite Hh1. }
    { intros Hin. apply Hnc. now right. }
    { intros Hin. apply Hnh. now right. }
    exists w'. cbn [bind_inputs]. rewrite Hw1. cbn [mbind result_bind].
    split; [exact Hw'|].
    rewrite Hrest, Hcalls, Hclick, Hhover, <- app_assoc.
    destruct i; reflexivity.
Qed.

End Listeners.

Lemma listener_gets_the_clicks_witness :
  let w := listening_world 7 8 in
  let inputs := [SeriesClick (VRef 0); PHeight (int 300); SeriesHover VNull;
                 PSeriesClick 9; SeriesClick VNull] in
  count_occ Nat.eq_dec (observers (seriesClick (this w))) 7%nat = 1%nat /\
  ~ In 7%nat (observers (seriesHover (this w))) /\
  ~ In (PSeriesClick 7) inputs /\
  ~ In (PSeriesHover 7) inputs /\
  exists w', bind_inputs sample_PoChartType w inputs = Ok w' /\
    calls_to 7 (trace w') = calls_to 7 (trace w) ++ [VRef 0; VNull].
Proof.
  cbv zeta.
  assert (H1 : count_occ Nat.eq_dec
                 (observers (seriesClick (this (listening_world 7 8)))) 7%nat
               = 1%nat) by reflexivity.
  assert (H2 : ~ In 7%nat (observers (seriesHover (this (listening_world 7 8)))))
    by (cbn; intros [E|[]]; discriminate).
  assert (H3 : ~ In (PSeriesClick 7)
                 [SeriesClick (VRef 0); PHeight (int 300); SeriesHover VNull;
                  PSeriesClick 9; SeriesClick VNull])
    by (cbn; intros [E|[E|[E|[E|[E|[]]]]]]; discriminate).
  assert (H4 : ~ In (PSeriesHover 7)
                 [SeriesClick (VRef 0); PHeight (int 300); SeriesHover VNull;
                  PSeriesClick 9; SeriesClick VNull])
    by (cbn; intros [E|[E|[E|[E|[E|[]]]]]]; discriminate).
  repeat (split; [assumption|]).
  exact (listener_gets_the_clicks sample_PoChartType 7 (listening_world 7 8)
           _ H1 H2 H3 H4).
Defined.

(** ** Objects with accessors *)

Lemma spread_props_returns (ps : list (string * Accessors.property)) :
  ~ Accessors.getter_throws ps ->
  exists qs, Accessors.spread_props ps = Ok qs /\
    map fst qs = map fst ps /\
    Forall2 (fun p q => Accessors.read (snd p) = Ok (match snd q with
                                                     | Accessors.Data v => v
                                                     | _ => VUndefined
                                                     end)) ps qs.
Proof.
  induction ps as [|[k p] ps IH]; intros Hno.
  - exists []. repeat split. constructor.
  - destruct IH as (qs & Hqs & Hkeys & Hall).
    { intros (k' & e & Hin). apply Hno. exists k', e. now right. }
    destruct p as [v|[v|e]].
    + exists ((k, Accessors.Data v) :: qs). cbn. rewrite Hqs. cbn.
      rewrite Hkeys. repeat split. now constructor.
    + exists ((k, Accessors.Data v) :: qs). cbn. rewrite Hqs. cbn.
      rewrite Hkeys. repeat split. now constructor.
    + exfalso. apply Hno. exists k, e. now left.
Qed.

Lemma spread_props_throws (ps : list (string * Accessors.property)) :
  Accessors.getter_throws ps ->
  exists e, Accessors.spread_props ps = Throw e.
Proof.
  induction ps as [|[k p] ps IH]; intros (k' & e & Hin); [destruct Hin|].
  destruct p as [v|[v|e']]; cbn.
  - destruct Hin as [E|Hin]; [discriminate|].
    destruct IH as (e0 & ->); [now exists k', e|]. now exists e0.
  - destruct Hin as [E|Hin]; [discriminate|].
    destruct IH as (e0 & ->); [now exists k', e|]. now exists e0.
  - now exists e'.
Qed.

Lemma getter_throws_dec (ps : list (string * Accessors.property)) :
  Accessors.getter_throws ps \/ ~ Accessors.getter_throws ps.
Proof.
  induction ps as [|[k p] ps [IH|IH]].
  - right. intros (k & e & []).
  - left. destruct IH as (k' & e & Hin). exists k', e. now right.
  - destruct p as [v|[v|e]].
    + right. intros (k' & e & [E|Hin]); [discriminate|].
      apply IH. now exists k', e.
    + right. intros (k' & e & [E|Hin]); [discriminate|].
      apply IH. now exists k', e.
    + left. exists k, e. now left.
Qed.

Lemma getters_return_object
    (h : list Accessors.obj) (l : loc) (ps : list (string * Accessors.property)) :
  Accessors.getters_return h -> h !! l = Some (Accessors.Obj ps) ->
  ~ Accessors.getter_throws ps.
Proof. intros Hret Hl (k & e & Hin). exact (Hret l ps k e Hl Hin). Qed.

Lemma accessors_spread_returns (h : list Accessors.obj) (v : value) :
  Accessors.getters_return h -> exists qs, Accessors.spread h v = Ok qs.
Proof.
  intros Hret. destruct v as [| |b|n|s|l]; cbn; eauto.
  destruct (h !! l) as [[ps|es]|] eqn:Hl; eauto.
  destruct (spread_props_returns ps) as (qs & Hqs & _); eauto.
  eapply getters_return_object; eauto.
Qed.



Lemma accessors_lookup_new (h : list Accessors.obj) (o : Accessors.obj) :
  (h ++ [o]) !! length h = Some o.
Proof. now apply list_lookup_middle. Qed.


Lemma accessors_transform_throws_iff
    (h : list Accessors.obj) (v : value) :
  (exists e, Accessors.transformObjectToArrayObject h v = Throw e) <->
  v = VNull \/
  exists l ps, v = VRef l /\ h !! l = Some (Accessors.Obj ps) /\
               Accessors.getter_throws ps.
Proof.
  unfold Accessors.transformObjectToArrayObject. split.
  - intros [e He].
    destruct v as [| |b|n|s|l]; cbn in He; try discriminate; [now left|].
    right. destruct (h !! l) as [[ps|es]|] eqn:Hl; cbn in He.
    + exists l, ps. split; [reflexivity|]. split; [exact Hl|].
      destruct (getter_throws_dec ps) as [Hthrows|Hno]; [exact Hthrows|].
      destruct (spread_props_returns ps Hno) as (qs & Hqs & _).
      rewrite Hqs in He. repeat case_match; discriminate.
    + repeat case_match; discriminate.
    + discriminate.
  - intros [->|(l & ps & -> & Hl & Hthrows)]; [now exists TypeError|].
    destruct (spread_props_throws ps Hthrows) as (e & He).
    assert (Hpos : (0 <? length (map fst ps))%nat = true).
    { destruct Hthrows as (k & e' & Hin).
      destruct ps; [destruct Hin | reflexivity]. }
    exists e.
    cbn [typeof String.eqb Ascii.eqb Bool.eqb Accessors.Object_keys
         Accessors.spread].
    rewrite Hl. cbn [mbind result_bind]. rewrite Hpos, He. reflexivity.
Qed.

(** X5: [transformObjectToArrayObject] throws on null, which passes the
    test [typeof serie === 'object'] and which [Object.keys] rejects, and
    on an object with an own accessor whose getter throws, in the spread
    of the copy; it returns on every other value. *)
Theorem transform_throws_characterised
    (h : list Accessors.obj) (v : value) :
  (exists e, Accessors.transformObjectToArrayObject h v = Throw e) <->
  v = VNull \/
  exists l ps, v = VRef l /\ h !! l = Some (Accessors.Obj ps) /\
               Accessors.getter_throws ps.
Proof. apply accessors_transform_throws_iff. Qed.

Lemma accessors_set_series_falsy (w : Accessors.World) (v : value) :
  truthy v = false ->
  Accessors.set_series w v =
  Ok {| Accessors.store :=
          (Accessors.store w ++ [Accessors.Arr []]) ++ [Accessors.Arr []];
        Accessors.this :=
          with_chartSeries
            (with_minMaxValues
               (with_series (Accessors.this w)
                  (VRef (length (Accessors.store w))))
               None)
            (VRef (S (length (Accessors.store w))));
        Accessors.trace := Accessors.trace w |}.
Proof.
  intros Hv. unfold Accessors.set_series. rewrite Hv.
  cbn [Accessors.alloc].
  unfold Accessors.Array_isArray, Accessors.calculateMaxValue,
    Accessors.elements.
  rewrite accessors_lookup_new. cbn.
  rewrite length_app. cbn. rewrite Nat.add_1_r. reflexivity.
Qed.



Section Totality.

Variable PoChartType : PoChartTypeEnum.


End Totality.



(** ** The two stores agree on data *)

Lemma with_accessors_lookup (h : heap) (l : loc) :
  with_accessors h !! l
  = match h !! l with
    | Some (Obj ps) =>
        Some (Accessors.Obj
                (map (fun kv => (fst kv, Accessors.Data (snd kv))) ps))
    | Some (Arr es) => Some (Accessors.Arr es)
    | None => None
    end.
Proof.
  unfold with_accessors. rewrite list_lookup_fmap.
  destruct (h !! l) as [[ps|es]|]; reflexivity.
Qed.

Lemma with_accessors_alloc_arr (h : heap) (es : list value) :
  with_accessors (h ++ [Arr es]) = with_accessors h ++ [Accessors.Arr es].
Proof. unfold with_accessors. now rewrite map_app. Qed.

Lemma with_accessors_alloc_obj (h : heap) (ps : list (string * value)) :
  with_accessors (h ++ [Obj ps])
  = with_accessors h
    ++ [Accessors.Obj (map (fun kv => (fst kv, Accessors.Data (snd kv))) ps)].
Proof. unfold with_accessors. now rewrite map_app. Qed.

Lemma with_accessors_length (h : heap) :
  length (with_accessors h) = length h.
Proof. unfold with_accessors. apply length_map. Qed.

Lemma with_accessors_elements (h : heap) (v : value) :
  Accessors.elements (with_accessors h) v = elements h v.
Proof.
  destruct v as [| |b|n|s|l]; try reflexivity. cbn.
  rewrite with_accessors_lookup. destruct (h !! l) as [[ps|es]|]; reflexivity.
Qed.

Lemma with_accessors_isArray (h : heap) (v : value) :
  Accessors.Array_isArray (with_accessors h) v = Array_isArray h v.
Proof.
  destruct v as [| |b|n|s|l]; try reflexivity. cbn.
  rewrite with_accessors_lookup. destruct (h !! l) as [[ps|es]|]; reflexivity.
Qed.

Lemma with_accessors_keys (h : heap) (v : value) :
  Accessors.Object_keys (with_accessors h) v = Object_keys h v.
Proof.
  destruct v as [| |b|n|s|l]; try reflexivity. cbn.
  rewrite with_accessors_lookup.
  destruct (h !! l) as [[ps|es]|]; try reflexivity.
  now rewrite map_map.
Qed.

Lemma spread_props_data (ps : list (string * value)) :
  Accessors.spread_props
    (map (fun kv => (fst kv, Accessors.Data (snd kv))) ps)
  = Ok (map (fun kv => (fst kv, Accessors.Data (snd kv))) ps).
Proof.
  induction ps as [|[k v] ps IH]; [reflexivity|].
  cbn. rewrite IH. reflexivity.
Qed.

Lemma with_accessors_get_prop (h : heap) (v : value) (k : string) :
  Accessors.get_prop (with_accessors h) v k = Ok (get_prop h v k).
Proof.
  destruct v as [| |b|n|s|l]; try reflexivity. cbn.
  rewrite with_accessors_lookup.
  destruct (h !! l) as [[ps|es]|]; try reflexivity.
  induction ps as [|[k' x] ps IH]; [reflexivity|].
  cbn. destruct (String.eqb k' k); [reflexivity | exact IH].
Qed.

Lemma with_accessors_data_points (h : heap) (series : list value) :
  Accessors.data_points (with_accessors h) series = Ok (data_points h series).
Proof.
  induction series as [|s rest IH]; [reflexivity|].
  cbn [Accessors.data_points]. unfold Accessors.data_points_of.
  rewrite with_accessors_get_prop. cbn [mbind result_bind].
  rewrite IH. cbn [mbind result_bind].
  unfold data_points, data_points_of. cbn [flat_map].
  destruct (get_prop h s "data"); rewrite ?with_accessors_elements;
    reflexivity.
Qed.

Lemma with_accessors_calculateMaxValue (h : heap) (v : value) :
  Accessors.calculateMaxValue (with_accessors h) v
  = Ok (calculateMaxValue h v).
Proof.
  unfold Accessors.calculateMaxValue, calculateMaxValue.
  rewrite with_accessors_elements, with_accessors_data_points.
  reflexivity.
Qed.

(** On a store of data properties the series setter over the store with
    accessors does what the one over data does. *)
Lemma set_series_with_accessors (w : World) (v : value) :
  exists w', set_series w v = Ok w' /\
    Accessors.set_series (world_with_accessors w) v
    = Ok (world_with_accessors w').
Proof.
  destruct (series_cases w v)
    as [Hf|[(l & es & -> & Hl)|[(l & ps & -> & Hl & Hps)|(Hv & Ha & Hs)]]].
  - eexists. split; [apply set_series_falsy, Hf|].
    rewrite accessors_set_series_falsy by exact Hf.
    unfold world_with_accessors. cbn.
    now rewrite !with_accessors_alloc_arr, with_accessors_length.
  - eexists. split; [apply set_series_array, Hl|].
    unfold Accessors.set_series, world_with_accessors. cbn [truthy].
    cbn [Accessors.store Accessors.this Accessors.trace].
    rewrite with_accessors_isArray, with_accessors_calculateMaxValue,
      with_accessors_elements.
    unfold Array_isArray, elements. rewrite Hl.
    cbn. now rewrite with_accessors_alloc_arr, with_accessors_length.
  - eexists. split; [apply (set_series_object w l ps Hl Hps)|].
    unfold Accessors.set_series, world_with_accessors. cbn [truthy].
    cbn [Accessors.store Accessors.this Accessors.trace].
    rewrite with_accessors_isArray.
    unfold Array_isArray. rewrite Hl.
    unfold Accessors.transformObjectToArrayObject.
    cbn [typeof String.eqb Ascii.eqb Bool.eqb].
    rewrite with_accessors_keys. cbn [Object_keys]. rewrite Hl.
    cbn [mbind result_bind].
    destruct ps as [|p ps]; [congruence|].
    cbn [map length Nat.ltb Nat.leb]. cbn [Accessors.spread].
    rewrite with_accessors_lookup, Hl, spread_props_data.
    cbn. rewrite with_accessors_alloc_arr, with_accessors_alloc_obj.
    rewrite with_accessors_length, length_app, with_accessors_length.
    cbn. rewrite Nat.add_1_r. reflexivity.
  - eexists. split; [apply (set_series_other w v Hv Ha Hs)|].
    unfold Accessors.set_series, world_with_accessors. rewrite Hv.
    cbn [Accessors.store Accessors.this Accessors.trace].
    rewrite with_accessors_isArray, Ha.
    unfold Accessors.transformObjectToArrayObject.
    rewrite with_accessors_keys.
    destruct (String.eqb (typeof v) "object") eqn:Ety.
    + destruct Hs as [Hne|Hkeys];
        [apply String.eqb_eq in Ety; contradiction|].
      rewrite Hkeys. cbn.
      now rewrite with_accessors_alloc_arr, with_accessors_length.
    + cbn. now rewrite with_accessors_alloc_arr, with_accessors_length.
Qed.
